(** * Smart Document Reader: a shallow embedding of [script.js]

    The development follows the class [SmartDocumentReader]:
    - [Text]: the string primitives of JavaScript the code relies on
      ([trim], [split], [includes], [startsWith], the sentence regular
      expression);
    - [Dom]: the node tree walked by [extractSentencesFromElement];
    - [Segmenter]: [extractSentencesFromElement];
    - [Number]: the JavaScript numbers produced by the two averages;
    - [Analyzer]: [analyzeAccessibility] and [displayAccessibilityAnalysis]
      as functions of the text and the sentences;
    - [Speech]: voices, the voice choice made inside [readCurrentSentence],
      utterances;
    - [Json]: the values kept in [localStorage];
    - [Reader]: the object state, the playback handlers, the settings
      persistence and the event loop that calls them;
    - [Samples]: documents, voices and sessions to evaluate the code on;
    - [Walker], [TextMore], [Engine]: the text nodes of a tree and the
      predicates the further properties are stated with;
    - [Spans]: [addSentenceSpans], the spans [highlightSentence] marks;
    - [Pdf]: the text [readPDFFile] assembles from the pages.
    The properties follow the definitions.

    Strings are [string]s whose characters stand for the UTF-16 code units
    U+0000..U+00FF. *)

From Stdlib Require Import String Ascii List ZArith QArith Qround Lia Bool DecimalString.
From stdpp Require Import base strings list gmap.
Import ListNotations.

Local Open Scope string_scope.
Set Warnings "-register-all".

(* ================================================================= *)
(** ** String primitives *)

Module Text.

(** White space as [String.prototype.trim] and the regexp class [\s] see it,
    restricted to U+0000..U+00FF: TAB, LF, VT, FF, CR, SPACE, NBSP. *)
Definition isWhiteSpace (c : ascii) : bool :=
  let n := nat_of_ascii c in
  ((9 <=? n)%nat && (n <=? 13)%nat) || (n =? 32)%nat || (n =? 160)%nat.

(** The class [[\.!?]] of the sentence pattern. *)
Definition isTerminator (c : ascii) : bool :=
  Ascii.eqb c "." || Ascii.eqb c "!" || Ascii.eqb c "?".

(** The class [[^\.!?]]. *)
Definition notTerminator (c : ascii) : bool := negb (isTerminator c).

Fixpoint trimStart (s : string) : string :=
  match s with
  | String c s' => if isWhiteSpace c then trimStart s' else s
  | EmptyString => EmptyString
  end.

Fixpoint rev (s : string) : string :=
  match s with
  | EmptyString => EmptyString
  | String c s' => rev s' ++ String c EmptyString
  end.

Definition trimEnd (s : string) : string := rev (trimStart (rev s)).

(** [s.trim()] *)
Definition trim (s : string) : string := trimEnd (trimStart s).

(** Truthiness of a string: [if (text)]. *)
Definition truthy (s : string) : bool :=
  match s with EmptyString => false | String _ _ => true end.

(** Longest prefix of [s] whose characters satisfy [p], and the rest:
    a greedy [[class]*]. *)
Fixpoint span (p : ascii -> bool) (s : string) : string * string :=
  match s with
  | EmptyString => (EmptyString, EmptyString)
  | String c s' =>
      if p c then let (a, r) := span p s' in (String c a, r)
      else (EmptyString, s)
  end.

(** One attempt of [/[^\.!?]+[\.!?]+/] at the start of [s]: a greedy,
    non-empty run of non-terminators followed by a greedy, non-empty run
    of terminators.  The two classes are complementary, so giving back
    characters of the first run never makes the second one match:
    backtracking cannot succeed where the greedy attempt fails. *)
Definition matchAt (s : string) : option (string * string) :=
  let (body, r1) := span notTerminator s in
  if truthy body then
    let (marks, r2) := span isTerminator r1 in
    if truthy marks then Some (body ++ marks, r2) else None
  else None.

(** The successive matches of the global pattern: after a match the scan
    resumes at its end ([lastIndex]), after a failure one character
    further.  Every round consumes a character, so [String.length s]
    rounds scan the whole of [s]. *)
Fixpoint matchAllFrom (fuel : nat) (s : string) : list string :=
  match fuel with
  | O => []
  | S fuel' =>
      match s with
      | EmptyString => []
      | String _ s' =>
          match matchAt s with
          | Some (m, rest) => m :: matchAllFrom fuel' rest
          | None => matchAllFrom fuel' s'
          end
      end
  end.

Definition matchAll (s : string) : list string :=
  matchAllFrom (String.length s) s.

(** [text.match(/[^\.!?]+[\.!?]+/g) || [text]]: [match] answers [null]
    when nothing matches. *)
Definition matchSentences (text : string) : list string :=
  match matchAll text with
  | [] => [text]
  | ms => ms
  end.

(** [s.startsWith(p)] *)
Definition startsWith (s p : string) : bool := String.prefix p s.

(** [s.includes(p)] *)
Fixpoint includes (s p : string) : bool :=
  String.prefix p s ||
  match s with
  | EmptyString => false
  | String _ s' => includes s' p
  end.

(** [s.split(sep)] for a non-empty separator: [skip] counts the characters
    of a separator occurrence still to pass over, [cur] holds the current
    piece in reverse. *)
Fixpoint splitFrom (sep : string) (skip : nat) (cur : string) (s : string)
  : list string :=
  match s with
  | EmptyString => [rev cur]
  | String c s' =>
      match skip with
      | S k => splitFrom sep k cur s'
      | O =>
          if String.prefix sep s
          then rev cur :: splitFrom sep (String.length sep - 1) EmptyString s'
          else splitFrom sep 0 (String c cur) s'
      end
  end.

Definition split (sep s : string) : list string :=
  splitFrom sep 0 EmptyString s.

(** [a.join(sep)] *)
Definition join (sep : string) (l : list string) : string :=
  String.concat sep l.

Definition LF : string := String (ascii_of_nat 10) EmptyString.
Definition blankLine : string := LF ++ LF.

(** The characters of [s] that are not white space. *)
Fixpoint nonWhiteSpace (s : string) : string :=
  match s with
  | EmptyString => EmptyString
  | String c s' =>
      if isWhiteSpace c then nonWhiteSpace s' else String c (nonWhiteSpace s')
  end.

(** Every character of [s] satisfies [p]. *)
Fixpoint allChars (p : ascii -> bool) (s : string) : bool :=
  match s with
  | EmptyString => true
  | String c s' => p c && allChars p s'
  end.

(** [n] copies of [s], to write down long documents. *)
Fixpoint repeat (n : nat) (s : string) : string :=
  match n with
  | O => EmptyString
  | S n' => s ++ repeat n' s
  end.

End Text.

(* ================================================================= *)
(** ** The node tree *)

Module Dom.

(** What [extractSentencesFromElement] distinguishes in a node: a text node
    ([Node.TEXT_NODE]) with its [textContent], an element
    ([Node.ELEMENT_NODE]) with its [childNodes], anything else. *)
Inductive node : Type :=
| TextNode (textContent : string)
| ElementNode (childNodes : list node)
| OtherNode.

(** [textContent] of a subtree: the text nodes in document order. *)
Fixpoint textContent (n : node) : string :=
  match n with
  | TextNode t => t
  | ElementNode cs =>
      (fix go (cs : list node) : string :=
         match cs with
         | [] => EmptyString
         | c :: cs' => textContent c ++ go cs'
         end) cs
  | OtherNode => EmptyString
  end.

End Dom.

(* ================================================================= *)
(** ** Segmentation: [extractSentencesFromElement] *)

Module Segmenter.
Import Text Dom.

(** The body of the [TEXT_NODE] branch: the sentences one text node adds. *)
Definition textSentences (textContent : string) : list string :=
  let text := trim textContent in
  if truthy text then
    let sentences := matchSentences text in
    List.filter (fun s => (0 <? String.length s)%nat) (List.map trim sentences)
  else [].

(** [extractSentencesFromElement(element)], with [this.sentences] threaded
    through: the loop over [element.childNodes] pushes the sentences of
    text nodes and recurses into elements. *)
Fixpoint extractSentencesFromElement (element : node) (sentences : list string)
  {struct element} : list string :=
  match element with
  | ElementNode children =>
      (fix loop (cs : list node) (acc : list string) : list string :=
         match cs with
         | [] => acc
         | c :: cs' =>
             loop cs'
               (match c with
                | TextNode t => (acc ++ textSentences t)%list
                | ElementNode _ => extractSentencesFromElement c acc
                | OtherNode => acc
                end)
         end) children sentences
  | TextNode _ => sentences
  | OtherNode => sentences
  end.

(** [this.sentences = []; this.extractSentencesFromElement(tempDiv)] *)
Definition segment (tempDiv : node) : list string :=
  extractSentencesFromElement tempDiv [].

End Segmenter.

(* ================================================================= *)
(** ** JavaScript numbers *)

Module Number.

(** The values a division of two integers can take.  A finite double is
    kept as the exact rational it approximates: the operands here are
    string and array lengths (below 2^32), for which the comparisons with
    20 and 500 and the rounding to the nearest integer give the same
    answer on the double and on the rational. *)
Inductive number : Type :=
| NaN
| PosInf
| NegInf
| Fin (q : Q).

(** [a / b] on integers: [0/0] is [NaN], [a/0] an infinity, nothing
    throws. *)
Definition div (a b : Z) : number :=
  if (b =? 0)%Z then
    if (a =? 0)%Z then NaN else if (0 <? a)%Z then PosInf else NegInf
  else Fin (inject_Z a / inject_Z b).

(** [x > k]: every comparison with [NaN] is false. *)
Definition gt (x : number) (k : Z) : bool :=
  match x with
  | NaN => false
  | PosInf => true
  | NegInf => false
  | Fin q => negb (Qle_bool q (inject_Z k))
  end.

(** [x === y] on numbers. *)
Definition strictEq (x y : number) : bool :=
  match x, y with
  | Fin p, Fin q => Qeq_bool p q
  | PosInf, PosInf => true
  | NegInf, NegInf => true
  | _, _ => false
  end.

Definition ofZ (z : Z) : number := Fin (inject_Z z).

Definition Z_to_string (z : Z) : string :=
  NilZero.string_of_int (Z.to_int z).

(** The text of [Math.round(x)] inside a template literal. *)
Definition roundToString (x : number) : string :=
  match x with
  | NaN => "NaN"
  | PosInf => "Infinity"
  | NegInf => "-Infinity"
  | Fin q => Z_to_string (Qfloor (q + (1 # 2)))
  end.

End Number.

(* ================================================================= *)
(** ** Barrier analysis: [analyzeAccessibility], [displayAccessibilityAnalysis] *)

Module Analyzer.
Import Text.

Record issue : Type := mkIssue {
  type : string;
  severity : string;
  description : string;
  impact : string
}.

(** [this.sentences.reduce((sum, s) => sum + s.split(' ').length, 0)] *)
Definition totalWords (sentences : list string) : Z :=
  fold_left (fun sum s => (sum + Z.of_nat (List.length (split " " s)))%Z)
            sentences 0%Z.

(** The divisor of the first average. *)
Definition sentenceCount (sentences : list string) : Z :=
  Z.of_nat (List.length sentences).

Definition avgSentenceLength (sentences : list string) : Number.number :=
  Number.div (totalWords sentences) (sentenceCount sentences).

(** Line terminators of the regexp [^] under the [m] flag, in range. *)
Definition isLineTerminator (c : ascii) : bool :=
  let n := nat_of_ascii c in (n =? 10)%nat || (n =? 13)%nat.

(** One attempt of [(#|Chapter|Section|Part)] at the start of [s]. *)
Definition headingAt (s : string) : bool :=
  startsWith s "#" || startsWith s "Chapter" ||
  startsWith s "Section" || startsWith s "Part".

Fixpoint headingFrom (lineStart : bool) (s : string) : bool :=
  (lineStart && headingAt s) ||
  match s with
  | EmptyString => false
  | String c s' => headingFrom (isLineTerminator c) s'
  end.

(** [/^(#|Chapter|Section|Part)/m.test(text)] *)
Definition hasHeadings (text : string) : bool := headingFrom true text.

(** [text.split('\n\n').filter(p => p.trim().length > 0)] *)
Definition paragraphs (text : string) : list string :=
  List.filter (fun p => (0 <? String.length (trim p))%nat) (split blankLine text).

(** The divisor of the second average. *)
Definition paragraphCount (text : string) : Z :=
  Z.of_nat (List.length (paragraphs text)).

Definition avgParagraphLength (text : string) : Number.number :=
  Number.div (Z.of_nat (String.length text)) (paragraphCount text).

Definition complexityIssue (avg : Number.number) : issue :=
  {| type := "Sentence Complexity";
     severity := "high";
     description := "Average sentence length: " ++ Number.roundToString avg
                    ++ " words (recommended: <20)";
     impact := "Difficult for screen readers and cognitive processing" |}.

Definition structureIssue : issue :=
  {| type := "Document Structure";
     severity := "medium";
     description := "No clear headings or structure detected";
     impact := "Difficult navigation for assistive technologies" |}.

Definition densityIssue : issue :=
  {| type := "Text Density";
     severity := "medium";
     description := "Large text blocks detected";
     impact := "Overwhelming for users with reading difficulties" |}.

(** The three tests of [analyzeAccessibility(text)], each pushing onto
    [this.accessibilityIssues], which starts out empty. *)
Definition detectIssues (text : string) (sentences : list string) : list issue :=
  let issues := [] in
  let avg := avgSentenceLength sentences in
  let issues :=
    if Number.gt avg 20 then (issues ++ [complexityIssue avg])%list else issues in
  let issues :=
    if negb (hasHeadings text) && (10 <? List.length sentences)%nat
    then (issues ++ [structureIssue])%list else issues in
  let issues :=
    if Number.gt (avgParagraphLength text) 500
    then (issues ++ [densityIssue])%list else issues in
  issues.

(** The body of the [forEach] that lowers the score. *)
Definition penalize (score : Z) (i : issue) : Z :=
  if String.eqb (severity i) "high" then (score - 15)%Z
  else if String.eqb (severity i) "medium" then (score - 8)%Z
  else (score - 3)%Z.

Definition computeScore (issues : list issue) : Z :=
  fold_left penalize issues 100%Z.

Definition computeRiskLevel (score : Z) : string :=
  if (score <? 70)%Z then "High Risk"
  else if (score <? 85)%Z then "Medium Risk"
  else "Low Risk".

(** [issues.some(i => i.type === t)] *)
Definition hasType (t : string) (issues : list issue) : bool :=
  existsb (fun i => String.eqb (type i) t) issues.

(** The one recommendation sentence, present only when there are issues. *)
Definition recommend (issues : list issue) : option string :=
  match issues with
  | [] => None
  | _ =>
      Some (if hasType "Sentence Complexity" issues
            then "Vision Mode with audio and sentence highlighting for complex text. "
            else if hasType "Document Structure" issues
            then "Use sentence-by-sentence navigation for better structure. "
            else if hasType "Text Density" issues
            then "Audio mode with chunked reading for dense content. "
            else "Document is well-structured for all accessibility modes. ")
  end.

(** What [displayAccessibilityAnalysis] shows: the score line and the
    recommendation (the per-issue markup repeats the issues). *)
Record report : Type := mkReport {
  issues : list issue;
  score : Z;
  riskLevel : string;
  recommendation : option string
}.

Definition displayAccessibilityAnalysis (accessibilityIssues : list issue) : report :=
  let score := computeScore accessibilityIssues in
  {| issues := accessibilityIssues;
     score := score;
     riskLevel := computeRiskLevel score;
     recommendation := recommend accessibilityIssues |}.

(** [analyzeAccessibility(text)] read as a function of the text and of
    [this.sentences]. *)
Definition analyze (text : string) (sentences : list string) : report :=
  displayAccessibilityAnalysis (detectIssues text sentences).

(** *** The score and the risk level in the specification's words

    These three definitions follow the specification, not the code: the
    penalty of a severity, the score as 100 minus the penalties, not
    below 0, and the risk level read off the score. *)
Definition penalty (sev : string) : Z :=
  if String.eqb sev "high" then 15%Z
  else if String.eqb sev "medium" then 8%Z else 3%Z.

Definition specScore (issues : list issue) : Z :=
  Z.max 0 (100 - fold_right (fun i sum => penalty (severity i) + sum) 0 issues)%Z.

Definition specRiskLevel (score : Z) : string :=
  if (85 <=? score)%Z then "Low Risk"
  else if (70 <=? score)%Z then "Medium Risk"
  else "High Risk".

End Analyzer.

(* ================================================================= *)
(** ** The speech engine's data: voices and utterances *)

Module Speech.
Import Text.

(** [SpeechSynthesisVoice], as far as the code reads it. *)
Record SpeechSynthesisVoice : Type := mkVoice {
  name : string;
  lang : string;
  localService : bool
}.

(** The predicate of the first [voices.find]. *)
Definition preferred (voice : SpeechSynthesisVoice) : bool :=
  includes (name voice) "Natural" ||
  includes (name voice) "Enhanced" ||
  includes (name voice) "Premium" ||
  includes (name voice) "Neural" ||
  (startsWith (lang voice) "en" && localService voice).

(** The predicate of the second [voices.find]. *)
Definition english (voice : SpeechSynthesisVoice) : bool :=
  startsWith (lang voice) "en".

(** [voices.find(preferred) || voices.find(english) || voices[0]]: a voice
    object is truthy, [undefined] is not. *)
Definition preferredVoice (voices : list SpeechSynthesisVoice)
  : option SpeechSynthesisVoice :=
  match List.find preferred voices with
  | Some v => Some v
  | None =>
      match List.find english voices with
      | Some v => Some v
      | None => voices !! 0%nat
      end
  end.

(** The keyword test alone, to speak about the order of preference. *)
Definition keywordNamed (voice : SpeechSynthesisVoice) : bool :=
  includes (name voice) "Natural" ||
  includes (name voice) "Enhanced" ||
  includes (name voice) "Premium" ||
  includes (name voice) "Neural".

(** [SpeechSynthesisUtterance]: the text, and what [readCurrentSentence]
    sets on it.  [sentenceIndex] is a ghost field, the value of
    [currentSentence] when the utterance was created; the code keeps no
    such field.  The literal [1.1] is kept as the rational it denotes. *)
Record SpeechSynthesisUtterance : Type := mkUtterance {
  text : string;
  sentenceIndex : Z;
  voice : option SpeechSynthesisVoice;
  rate : Number.number;
  pitch : Q;
  volume : Q
}.

End Speech.

(* ================================================================= *)
(** ** JSON values, as [JSON.stringify] writes and [JSON.parse] reads them *)

Module Json.

Inductive json : Type :=
| JBool (b : bool)
| JString (s : string)
| JObject (fields : list (string * json)).

(** [parsed.key]: [None] stands for [undefined]. *)
Definition get (key : string) (v : json) : option json :=
  match v with
  | JObject fields =>
      match List.find (fun kv => String.eqb (fst kv) key) fields with
      | Some kv => Some (snd kv)
      | None => None
      end
  | _ => None
  end.

(** Truthiness of a property read. *)
Definition truthy (v : option json) : bool :=
  match v with
  | None => false
  | Some (JBool b) => b
  | Some (JString s) => Text.truthy s
  | Some (JObject _) => true
  end.

(** The string a value becomes when assigned to an input's [value]. *)
Definition toValue (v : option json) : string :=
  match v with
  | None => "undefined"
  | Some (JBool true) => "true"
  | Some (JBool false) => "false"
  | Some (JString s) => s
  | Some (JObject _) => "[object Object]"
  end.

End Json.

(* ================================================================= *)
(** ** The text nodes of a tree *)

Module Walker.
Import Dom.

(** The text nodes below [root] in document order, as a [TreeWalker] with
    [NodeFilter.SHOW_TEXT] visits them and as the recursion of
    [extractSentencesFromElement] meets them; the root itself is not
    visited. *)
Fixpoint descendantTexts (root : node) : list string :=
  match root with
  | ElementNode children =>
      (fix go (cs : list node) : list string :=
         match cs with
         | [] => []
         | c :: cs' =>
             (match c with
              | TextNode t => [t]
              | ElementNode _ => descendantTexts c
              | OtherNode => []
              end ++ go cs')%list
         end) children
  | TextNode _ => []
  | OtherNode => []
  end.

End Walker.

(* ================================================================= *)
(** ** The sentence spans of the displayed document *)

Module Spans.
Import Text Dom Walker.

(** [addSentenceSpans(element)]: the texts of the [span.sentence] elements
    it creates, in the order of their [data-index], which counts from 0
    across the text nodes.  The walker collects the text nodes whose
    trimmed text is not empty; each is cut by the sentence pattern applied
    to its text as it stands.  [highlightSentence(index)] marks the span at
    position [index] of this list (the markup is taken to carry no
    [data-index] attribute of its own). *)
Definition addSentenceSpans (element : node) : list string :=
  let textNodes :=
    List.filter (fun t => truthy (trim t)) (descendantTexts element) in
  List.concat (List.map matchSentences textNodes).

(** The text starts with white space that is followed by a terminator. *)
Definition leadingMark (t : string) : bool :=
  match t with
  | String c _ =>
      isWhiteSpace c &&
      match trimStart t with
      | String d _ => isTerminator d
      | EmptyString => false
      end
  | EmptyString => false
  end.

End Spans.

(* ================================================================= *)
(** ** The reader object, its handlers and the events that call them *)

Module Reader.
Import Text Dom Segmenter Analyzer Speech Json Spans.

(** The state the handlers read and write: the fields of the object
    ([currentText] is written and never read, [voices] is the list
    [speechSynth.getVoices()] answers), the parts of the page they use,
    and the browser around them.

    The engine is a queue: [speak] appends an utterance, the head of
    [queue] is the one being spoken, [cancel] empties the queue.  The
    removed utterances are remembered in [cancelled]: their handlers are
    still attached, and whether the engine calls them afterwards is up to
    the engine.  [timers] counts the pending
    [setTimeout(() => this.readCurrentSentence(), 200)] callbacks.
    [spans] holds the texts of the sentence spans on the page, in the
    order of their [data-index] (the page as delivered has none),
    [highlighted] the index of the span that carries the highlight,
    [progress] the number written by [updateProgress], [announcements] the
    messages given to [announceToScreenReader], oldest first. *)
Record reader : Type := mkReader {
  sentences : list string;
  currentSentence : Z;
  isPlaying : bool;
  utterance : option SpeechSynthesisUtterance;
  accessibilityMode : bool;
  accessibilityIssues : list issue;
  speedSlider : string;
  analysisResults : option report;
  highlighted : option Z;
  progress : option Z;
  announcements : list string;
  localStorage : gmap string json;
  voices : list SpeechSynthesisVoice;
  queue : list SpeechSynthesisUtterance;
  cancelled : list SpeechSynthesisUtterance;
  timers : nat;
  spans : list string
}.

Definition set_sentences (v : list string) (r : reader) : reader :=
  mkReader v (currentSentence r) (isPlaying r) (utterance r)
    (accessibilityMode r) (accessibilityIssues r) (speedSlider r)
    (analysisResults r) (highlighted r) (progress r) (announcements r)
    (localStorage r) (voices r) (queue r) (cancelled r) (timers r) (spans r).

Definition set_currentSentence (v : Z) (r : reader) : reader :=
  mkReader (sentences r) v (isPlaying r) (utterance r) (accessibilityMode r)
    (accessibilityIssues r) (speedSlider r) (analysisResults r)
    (highlighted r) (progress r) (announcements r) (localStorage r)
    (voices r) (queue r) (cancelled r) (timers r) (spans r).

Definition set_isPlaying (v : bool) (r : reader) : reader :=
  mkReader (sentences r) (currentSentence r) v (utterance r)
    (accessibilityMode r) (accessibilityIssues r) (speedSlider r)
    (analysisResults r) (highlighted r) (progress r) (announcements r)
    (localStorage r) (voices r) (queue r) (cancelled r) (timers r) (spans r).

Definition set_utterance (v : option SpeechSynthesisUtterance) (r : reader) : reader :=
  mkReader (sentences r) (currentSentence r) (isPlaying r) v
    (accessibilityMode r) (accessibilityIssues r) (speedSlider r)
    (analysisResults r) (highlighted r) (progress r) (announcements r)
    (localStorage r) (voices r) (queue r) (cancelled r) (timers r) (spans r).

Definition set_accessibilityMode (v : bool) (r : reader) : reader :=
  mkReader (sentences r) (currentSentence r) (isPlaying r) (utterance r) v
    (accessibilityIssues r) (speedSlider r) (analysisResults r)
    (highlighted r) (progress r) (announcements r) (localStorage r)
    (voices r) (queue r) (cancelled r) (timers r) (spans r).

Definition set_accessibilityIssues (v : list issue) (r : reader) : reader :=
  mkReader (sentences r) (currentSentence r) (isPlaying r) (utterance r)
    (accessibilityMode r) v (speedSlider r) (analysisResults r)
    (highlighted r) (progress r) (announcements r) (localStorage r)
    (voices r) (queue r) (cancelled r) (timers r) (spans r).

Definition set_speedSlider (v : string) (r : reader) : reader :=
  mkReader (sentences r) (currentSentence r) (isPlaying r) (utterance r)
    (accessibilityMode r) (accessibilityIssues r) v (analysisResults r)
    (highlighted r) (progress r) (announcements r) (localStorage r)
    (voices r) (queue r) (cancelled r) (timers r) (spans r).

Definition set_analysisResults (v : option report) (r : reader) : reader :=
  mkReader (sentences r) (currentSentence r) (isPlaying r) (utterance r)
    (accessibilityMode r) (accessibilityIssues r) (speedSlider r) v
    (highlighted r) (progress r) (announcements r) (localStorage r)
    (voices r) (queue r) (cancelled r) (timers r) (spans r).

Definition set_highlighted (v : option Z) (r : reader) : reader :=
  mkReader (sentences r) (currentSentence r) (isPlaying r) (utterance r)
    (accessibilityMode r) (accessibilityIssues r) (speedSlider r)
    (analysisResults r) v (progress r) (announcements r) (localStorage r)
    (voices r) (queue r) (cancelled r) (timers r) (spans r).

Definition set_progress (v : option Z) (r : reader) : reader :=
  mkReader (sentences r) (currentSentence r) (isPlaying r) (utterance r)
    (accessibilityMode r) (accessibilityIssues r) (speedSlider r)
    (analysisResults r) (highlighted r) v (announcements r) (localStorage r)
    (voices r) (queue r) (cancelled r) (timers r) (spans r).

Definition set_announcements (v : list string) (r : reader) : reader :=
  mkReader (sentences r) (currentSentence r) (isPlaying r) (utterance r)
    (accessibilityMode r) (accessibilityIssues r) (speedSlider r)
    (analysisResults r) (highlighted r) (progress r) v (localStorage r)
    (voices r) (queue r) (cancelled r) (timers r) (spans r).

Definition set_localStorage (v : gmap string json) (r : reader) : reader :=
  mkReader (sentences r) (currentSentence r) (isPlaying r) (utterance r)
    (accessibilityMode r) (accessibilityIssues r) (speedSlider r)
    (analysisResults r) (highlighted r) (progress r) (announcements r) v
    (voices r) (queue r) (cancelled r) (timers r) (spans r).

Definition set_voices (v : list SpeechSynthesisVoice) (r : reader) : reader :=
  mkReader (sentences r) (currentSentence r) (isPlaying r) (utterance r)
    (accessibilityMode r) (accessibilityIssues r) (speedSlider r)
    (analysisResults r) (highlighted r) (progress r) (announcements r)
    (localStorage r) v (queue r) (cancelled r) (timers r) (spans r).

Definition set_queue (v : list SpeechSynthesisUtterance) (r : reader) : reader :=
  mkReader (sentences r) (currentSentence r) (isPlaying r) (utterance r)
    (accessibilityMode r) (accessibilityIssues r) (speedSlider r)
    (analysisResults r) (highlighted r) (progress r) (announcements r)
    (localStorage r) (voices r) v (cancelled r) (timers r) (spans r).

Definition set_cancelled (v : list SpeechSynthesisUtterance) (r : reader) : reader :=
  mkReader (sentences r) (currentSentence r) (isPlaying r) (utterance r)
    (accessibilityMode r) (accessibilityIssues r) (speedSlider r)
    (analysisResults r) (highlighted r) (progress r) (announcements r)
    (localStorage r) (voices r) (queue r) v (timers r) (spans r).

Definition set_timers (v : nat) (r : reader) : reader :=
  mkReader (sentences r) (currentSentence r) (isPlaying r) (utterance r)
    (accessibilityMode r) (accessibilityIssues r) (speedSlider r)
    (analysisResults r) (highlighted r) (progress r) (announcements r)
    (localStorage r) (voices r) (queue r) (cancelled r) v (spans r).

Definition set_spans (v : list string) (r : reader) : reader :=
  mkReader (sentences r) (currentSentence r) (isPlaying r) (utterance r)
    (accessibilityMode r) (accessibilityIssues r) (speedSlider r)
    (analysisResults r) (highlighted r) (progress r) (announcements r)
    (localStorage r) (voices r) (queue r) (cancelled r) (timers r) v.

(** [this.sentences.length] *)
Definition sentenceTotal (r : reader) : Z := Z.of_nat (List.length (sentences r)).

(** [this.sentences[i]], spoken as the text ["undefined"] when absent. *)
Definition sentenceAt (r : reader) (i : Z) : string :=
  match (if (i <? 0)%Z then None else sentences r !! Z.to_nat i) with
  | Some t => t
  | None => "undefined"
  end.

(** *** The collaborators *)

Definition announceToScreenReader (message : string) (r : reader) : reader :=
  set_announcements (announcements r ++ [message])%list r.

(** [this.speechSynth.speak(u)] *)
Definition speak (u : SpeechSynthesisUtterance) (r : reader) : reader :=
  set_queue (queue r ++ [u])%list r.

(** [this.speechSynth.cancel()] *)
Definition cancel (r : reader) : reader :=
  set_queue [] (set_cancelled (cancelled r ++ queue r)%list r).

(** [setTimeout(() => this.readCurrentSentence(), 200)] *)
Definition setTimeout (r : reader) : reader := set_timers (S (timers r)) r.

Definition updateProgress (r : reader) : reader :=
  set_progress (Some (currentSentence r + 1)%Z) r.

(** [document.querySelector(`[data-index="${index}"]`)] on a page whose
    sentence spans are [spans]: the index when such a span is found. *)
Definition spanIndex (index : Z) (spans : list string) : option Z :=
  if (0 <=? index)%Z && (index <? Z.of_nat (List.length spans))%Z
  then Some index else None.

Arguments spanIndex : simpl never.

(** [highlightSentence(index)]: every highlight is removed, then the span
    with that [data-index] is highlighted, if the page has one. *)
Definition highlightSentence (index : Z) (r : reader) : reader :=
  set_highlighted (spanIndex index (spans r)) r.

Arguments highlightSentence index r /.

(** *** Playback *)

Definition pauseReading (r : reader) : reader :=
  let r := set_isPlaying false r in
  match utterance r with
  | Some _ => cancel r
  | None => r
  end.

Section Playback.

(** The built-in [parseFloat], applied to the slider's value. *)
Variable parseFloat : string -> Number.number.

Definition newUtterance (r : reader) : SpeechSynthesisUtterance :=
  {| text := sentenceAt r (currentSentence r);
     sentenceIndex := currentSentence r;
     voice := preferredVoice (voices r);
     rate := parseFloat (speedSlider r);
     pitch := 11 # 10;
     volume := 1 |}.

Definition readCurrentSentence (r : reader) : reader :=
  if negb (isPlaying r) || (sentenceTotal r <=? currentSentence r)%Z
  then pauseReading r
  else
    let r := highlightSentence (currentSentence r) r in
    let u := newUtterance r in
    let r := set_utterance (Some u) r in
    let r := speak u r in
    updateProgress r.

(** [this.utterance.onend]: the same closure for every utterance, it
    captures [this] and nothing of the utterance. *)
Definition onend (r : reader) : reader :=
  let r := set_currentSentence (currentSentence r + 1)%Z r in
  let r := updateProgress r in
  if (currentSentence r <? sentenceTotal r)%Z && isPlaying r
  then setTimeout r
  else announceToScreenReader "Document reading complete." (pauseReading r).

(** [this.utterance.onerror] *)
Definition onerror (r : reader) : reader := pauseReading r.

Definition startReading (r : reader) : reader :=
  if (sentenceTotal r =? 0)%Z
  then announceToScreenReader
         "No document loaded. Please upload a file first." r
  else readCurrentSentence (set_isPlaying true r).

Definition togglePlayback (r : reader) : reader :=
  if isPlaying r then pauseReading r else startReading r.

(** [updateSpeed(speed)]: the argument is not used. *)
Definition updateSpeed (r : reader) : reader :=
  match utterance r with
  | Some _ => if isPlaying r then setTimeout (cancel r) else r
  | None => r
  end.

(** The [ArrowRight] and [ArrowLeft] cases of [handleKeyboard]. *)
Definition arrowRight (r : reader) : reader :=
  if (currentSentence r <? sentenceTotal r - 1)%Z then
    let r := set_currentSentence (currentSentence r + 1)%Z r in
    if isPlaying r then setTimeout (cancel r) else r
  else r.

Definition arrowLeft (r : reader) : reader :=
  if (0 <? currentSentence r)%Z then
    let r := set_currentSentence (currentSentence r - 1)%Z r in
    if isPlaying r then setTimeout (cancel r) else r
  else r.

Definition resetPlayback (r : reader) : reader :=
  let r := set_currentSentence 0%Z r in
  let r := pauseReading r in
  let r := updateProgress r in
  set_highlighted None r.

(** *** Loading a document *)

(** [displayDocument(formattedText)]: the markup replaces the content of
    the page, highlighted span included, and [addSentenceSpans] puts the
    sentence spans into it (for an empty markup the other branch makes the
    spans from the sentences: there are none either way); the progress
    display is updated. *)
Definition displayDocument (tempDiv : node) (r : reader) : reader :=
  let r := set_spans (addSentenceSpans tempDiv) (set_highlighted None r) in
  updateProgress r.

(** [processDocument(text)] from the point where [tempDiv] holds the
    parsed markup: the sentences are extracted afresh, the document is
    displayed, playback is reset. *)
Definition processDocument (tempDiv : node) (r : reader) : reader :=
  let r := set_sentences (extractSentencesFromElement tempDiv []) r in
  let r := displayDocument tempDiv r in
  resetPlayback r.

Definition pushIssue (i : issue) (r : reader) : reader :=
  set_accessibilityIssues (accessibilityIssues r ++ [i])%list r.

(** [analyzeAccessibility(text)] on the object: the issue list is
    emptied, filled again and displayed. *)
Definition analyzeAccessibility (text : string) (r : reader) : reader :=
  let r := set_accessibilityIssues [] r in
  let avg := avgSentenceLength (sentences r) in
  let r := if Number.gt avg 20 then pushIssue (complexityIssue avg) r else r in
  let r :=
    if negb (hasHeadings text) && (10 <? List.length (sentences r))%nat
    then pushIssue structureIssue r else r in
  let r :=
    if Number.gt (avgParagraphLength text) 500
    then pushIssue densityIssue r else r in
  set_analysisResults
    (Some (displayAccessibilityAnalysis (accessibilityIssues r))) r.

(** The successful path of [handleFileUpload]. *)
Definition handleFileUpload (fileName text : string) (tempDiv : node)
           (r : reader) : reader :=
  let r := processDocument tempDiv r in
  let r := analyzeAccessibility text r in
  announceToScreenReader
    ("Document loaded: " ++ fileName ++ ". "
     ++ Number.Z_to_string (sentenceTotal r)
     ++ " sentences ready for reading.") r.

(** [showError(message)]: the message replaces the document on the page,
    which loses its sentence spans and with them the highlight, and is
    announced. *)
Definition showError (message : string) (r : reader) : reader :=
  let r := set_spans [] (set_highlighted None r) in
  announceToScreenReader ("Error: " ++ message) r.

(** *** Settings *)

Definition storageKey : string := "smartDocumentReader".

(** [localStorage] holds the value whose JSON text [setItem] stores:
    [JSON.parse] of [JSON.stringify] of such a record is the record. *)
Definition saveSettings (r : reader) : reader :=
  let settings :=
    JObject [("accessibilityMode", JBool (accessibilityMode r));
             ("speed", JString (speedSlider r))] in
  set_localStorage (<[storageKey := settings]> (localStorage r)) r.

Definition toggleAccessibilityMode (r : reader) : reader :=
  let r := set_accessibilityMode (negb (accessibilityMode r)) r in
  let r := saveSettings r in
  announceToScreenReader
    ((if accessibilityMode r then "Accessibility" else "Normal")
     ++ " mode activated") r.

Definition loadSettings (r : reader) : reader :=
  match localStorage r !! storageKey with
  | Some parsed =>
      let r :=
        if Json.truthy (get "accessibilityMode" parsed)
        then toggleAccessibilityMode r else r in
      if Json.truthy (get "speed" parsed)
      then set_speedSlider (toValue (get "speed" parsed)) r
      else r
  | None => r
  end.

(** [new SmartDocumentReader()] in a browser whose storage is [storage],
    whose slider shows [slider] and whose engine offers [engineVoices]:
    the field initialisers, [setupAccessibility], [loadSettings]. *)
Definition construct (storage : gmap string json) (slider : string)
           (engineVoices : list SpeechSynthesisVoice) : reader :=
  let r :=
    {| sentences := [];
       currentSentence := 0%Z;
       isPlaying := false;
       utterance := None;
       accessibilityMode := true;
       accessibilityIssues := [];
       speedSlider := slider;
       analysisResults := None;
       highlighted := None;
       progress := None;
       announcements := [];
       localStorage := storage;
       voices := engineVoices;
       queue := [];
       cancelled := [];
       timers := O;
       spans := [] |} in
  let r :=
    announceToScreenReader
      "Smart Document Reader loaded in accessibility mode. Upload a document to begin."
      r in
  loadSettings r.

(** *** The event loop *)

(** What the browser can call: the user's gestures, a due timer, and the
    engine's events.  [UploadFails] is an upload that ends in [showError]
    (a file type other than text or PDF, a read error), [VoicesChanged] a
    new answer of [getVoices()].  [UtteranceEnd] and [UtteranceError] are
    about the utterance being spoken; [LateEnd k] and [LateError k] are the
    same events for the [k]-th utterance that [cancel] removed. *)
Inductive event : Type :=
| ClickPlay
| SlideSpeed (value : string)
| ClickMode
| KeyArrowRight
| KeyArrowLeft
| Upload (fileName text : string) (tempDiv : node)
| UploadFails (message : string)
| VoicesChanged (engineVoices : list SpeechSynthesisVoice)
| TimerFires
| UtteranceEnd
| UtteranceError
| LateEnd (k : nat)
| LateError (k : nat).

(** One turn of the event loop; [None] when the event cannot happen. *)
Definition handle (r : reader) (e : event) : option reader :=
  match e with
  | ClickPlay => Some (togglePlayback r)
  | SlideSpeed value => Some (updateSpeed (set_speedSlider value r))
  | ClickMode => Some (toggleAccessibilityMode r)
  | KeyArrowRight => Some (arrowRight r)
  | KeyArrowLeft => Some (arrowLeft r)
  | Upload fileName text tempDiv =>
      Some (handleFileUpload fileName text tempDiv r)
  | UploadFails message => Some (showError message r)
  | VoicesChanged engineVoices => Some (set_voices engineVoices r)
  | TimerFires =>
      match timers r with
      | S n => Some (readCurrentSentence (set_timers n r))
      | O => None
      end
  | UtteranceEnd =>
      match queue r with
      | _ :: rest => Some (onend (set_queue rest r))
      | [] => None
      end
  | UtteranceError =>
      match queue r with
      | _ :: rest => Some (onerror (set_queue rest r))
      | [] => None
      end
  | LateEnd k =>
      match cancelled r !! k with
      | Some _ => Some (onend (set_cancelled (delete k (cancelled r)) r))
      | None => None
      end
  | LateError k =>
      match cancelled r !! k with
      | Some _ => Some (onerror (set_cancelled (delete k (cancelled r)) r))
      | None => None
      end
  end.

Fixpoint run (es : list event) (r : reader) : option reader :=
  match es with
  | [] => Some r
  | e :: es' =>
      match handle r e with
      | Some r' => run es' r'
      | None => None
      end
  end.

(** Events of an engine that never reports the end of an utterance it was
    told to cancel; it may report an error for it, as the Web Speech API
    asks. *)
Definition orderly (e : event) : bool :=
  match e with
  | LateEnd _ => false
  | _ => true
  end.

(** The states of a session: those some sequence of events leads to
    from a freshly constructed reader. *)
Definition reachable (r : reader) : Prop :=
  exists storage slider engineVoices es,
    run es (construct storage slider engineVoices) = Some r.

(** The same with an engine that is orderly in this sense. *)
Definition reachableOrderly (r : reader) : Prop :=
  exists storage slider engineVoices es,
    forallb orderly es = true /\
    run es (construct storage slider engineVoices) = Some r.

End Playback.

(** *** Invariants of the index *)

(** What holds of the index whatever the engine does. *)
Definition indexSafe (r : reader) : Prop :=
  (0 <= currentSentence r)%Z /\
  (isPlaying r = true -> (currentSentence r < sentenceTotal r)%Z).

(** What holds of it when the engine reports no end of a cancelled
    utterance: an utterance waits in the queue only while the index is
    inside the document. *)
Definition indexBounded (r : reader) : Prop :=
  (0 <= currentSentence r <= sentenceTotal r)%Z /\
  (isPlaying r = true -> (currentSentence r < sentenceTotal r)%Z) /\
  (queue r <> [] ->
   (currentSentence r < sentenceTotal r)%Z /\ utterance r <> None).

(** The settings every utterance is given. *)
Definition fixedVoiceSettings (u : SpeechSynthesisUtterance) : Prop :=
  pitch u = 11 # 10 /\ volume u = 1%Q.

(** All the utterances the engine has been given have them. *)
Definition utterancesFixed (r : reader) : Prop :=
  Forall fixedVoiceSettings (queue r) /\
  Forall fixedVoiceSettings (cancelled r).

End Reader.


(* ================================================================= *)
(** ** Sample documents, voices and sessions *)

Module Samples.
Import Text Dom Segmenter Speech Reader.

(** A sentence of 25 one-letter words. *)
Definition sentence25 : string := Text.repeat 24 "a " ++ "a.".

(** [n] such sentences on one line. *)
Definition block (n : nat) : string :=
  Text.repeat (n - 1) (sentence25 ++ " ") ++ sentence25.

(** Fifteen of them as one paragraph, and the tree its markup
    [<p>...</p>] parses to. *)
Definition oneParagraph : string := block 15.
Definition oneParagraphDiv : node :=
  ElementNode [ElementNode [TextNode oneParagraph]].

(** The same fifteen sentences as two paragraphs; the markup is
    [<p>...</p>], a line feed, [<p>...</p>]. *)
Definition twoParagraphs : string := block 8 ++ blankLine ++ block 7.
Definition twoParagraphsDiv : node :=
  ElementNode [ElementNode [TextNode (block 8)]; TextNode LF;
               ElementNode [TextNode (block 7)]].

(** A local English voice listed before a remote one named Natural. *)
Definition david : SpeechSynthesisVoice :=
  {| name := "Microsoft David"; lang := "en-US"; localService := true |}.
Definition aria : SpeechSynthesisVoice :=
  {| name := "Microsoft Aria Online (Natural)"; lang := "en-US";
     localService := false |}.

(** Documents of one, two and six one-letter sentences. *)
Definition lettersDiv (t : string) : node := ElementNode [ElementNode [TextNode t]].
Definition one : string := "A.".
Definition two : string := "A. B.".
Definition six : string := "A. B. C. D. E. F.".

(** A [parseFloat] for the sample sessions. *)
Definition parseOne (value : string) : Number.number := Number.ofZ 1.

(** A first visit: empty storage, slider at [1], no voices yet. *)
Definition fresh : reader := construct ∅ "1" [].

(** The reader after the events [es] of a first visit. *)
Definition session (es : list event) : reader :=
  match run parseOne es fresh with
  | Some r => r
  | None => fresh
  end.

Definition upload (t : string) : event := Upload "sample.txt" t (lettersDiv t).

(** Two sentences; play; one change of speed, whose [cancel] the engine
    answers with an end event for the interrupted utterance.  That event
    and the change of speed each leave a timer, so the second sentence is
    spoken twice over; when the first of the two ends the document is
    complete and the other one is cancelled, and again the engine reports
    its end. *)
Definition speedChangeWhilePlaying : list event :=
  [upload two; ClickPlay; SlideSpeed "2"; LateEnd 0; TimerFires; TimerFires;
   UtteranceEnd; LateEnd 0].

(** One sentence, played to its end. *)
Definition playedToTheEnd : list event := [upload one; ClickPlay; UtteranceEnd].

(** Six sentences, playing the fourth (index 3). *)
Definition playingFourth : list event :=
  [upload six; ClickPlay; UtteranceEnd; TimerFires; UtteranceEnd; TimerFires;
   UtteranceEnd; TimerFires].

(** The same, followed by a step to the next sentence. *)
Definition seekWhilePlaying : list event :=
  (playingFourth ++ [KeyArrowRight])%list.

(** The same again, followed by what the engine may still report about
    the utterance the step cancelled. *)
Definition lateEndAfterSeek : list event :=
  (seekWhilePlaying ++ [LateEnd 0])%list.
Definition lateErrorAfterSeek : list event :=
  (seekWhilePlaying ++ [LateError 0])%list.

(** Six sentences, paused on the first. *)
Definition pausedOnFirst : list event := [upload six; ClickPlay; ClickPlay].

End Samples.


(* ================================================================= *)
(** ** More about strings *)

Module TextMore.
Import Text.

(** The string does not start with white space. *)
Definition startsClean (s : string) : Prop :=
  match s with
  | EmptyString => True
  | String c _ => isWhiteSpace c = false
  end.

(** The number of characters of [s] equal to [c]. *)
Fixpoint countChar (c : ascii) (s : string) : nat :=
  match s with
  | EmptyString => O
  | String x s' => ((if Ascii.eqb x c then 1 else 0) + countChar c s')%nat
  end.

(** The shape of a sentence cut at terminal punctuation: text without
    terminators and without white space in front, then a non-empty run of
    terminators. *)
Definition endsSentence (s : string) : Prop :=
  exists body marks,
    s = trimStart body ++ marks /\
    allChars notTerminator body = true /\
    truthy marks = true /\ allChars isTerminator marks = true.

End TextMore.

(* ================================================================= *)
(** ** Invariants of the engine's queue *)

Module Engine.
Import Speech Reader.

(** While the reader is not playing nothing waits in the engine, and what
    waits there was made by the reader. *)
Definition quiet (r : reader) : Prop :=
  (isPlaying r = false -> queue r = []) /\
  (queue r <> [] -> utterance r <> None).

(** The utterance speaks a sentence of the loaded document, the one at the
    index it was made for. *)
Definition speaksSentence (r : reader) (u : SpeechSynthesisUtterance) : Prop :=
  (0 <= sentenceIndex u)%Z /\
  sentences r !! Z.to_nat (sentenceIndex u) = Some (text u).

(** Everything in the queue speaks the loaded document, and the highlight
    is on the span numbered like the sentence queued last, or nowhere when
    the page has no such span. *)
Definition onTheDocument (r : reader) : Prop :=
  Forall (speaksSentence r) (queue r) /\
  match last (queue r) with
  | Some u => highlighted r = spanIndex (sentenceIndex u) (spans r)
  | None => True
  end.

(** What the cancelling handlers leave behind while the reader plays. *)
Definition restarted (r r1 : reader) (index : Z) (slider : string) : Prop :=
  isPlaying r1 = true /\ currentSentence r1 = index /\ queue r1 = [] /\
  cancelled r1 = (cancelled r ++ queue r)%list /\
  timers r1 = S (timers r) /\ sentences r1 = sentences r /\
  speedSlider r1 = slider /\ spans r1 = spans r.

End Engine.


(* ================================================================= *)
(** ** The text of a PDF file *)

Module Pdf.
Import Text.

(** [textContent.items.map(item => item.str).join(' ')] for one page,
    given the [str] of its items. *)
Definition pageText (items : list string) : string := join " " items.

(** The loop of [readPDFFile] over the pages [1..pdf.numPages]:
    [fullText += pageText + '\n'], starting from the empty string. *)
Definition readPDFFile (pages : list (list string)) : string :=
  fold_left (fun fullText items => fullText ++ pageText items ++ LF) pages "".

Definition notLineFeed (c : ascii) : bool :=
  negb (Ascii.eqb c (ascii_of_nat 10)).

(** A page with some text and no line feed in it. *)
Definition plainPage (items : list string) : Prop :=
  truthy (pageText items) = true /\ allChars notLineFeed (pageText items) = true.

End Pdf.

Import Text Dom Segmenter Analyzer Speech Json Reader.

(* ================================================================= *)
(** * Properties *)

(** ** The string primitives on known values *)

Section PrimitiveExamples.

Example trim_both_ends : trim ("  a b " ++ LF) = "a b".
Proof. reflexivity. Qed.

Example split_keeps_empty_pieces : split " " "a  b " = ["a"; ""; "b"; ""].
Proof. reflexivity. Qed.

Example split_empty_string : split " " "" = [""].
Proof. reflexivity. Qed.

Example split_blank_lines :
  split blankLine ("a" ++ blankLine ++ LF ++ "b") = ["a"; LF ++ "b"].
Proof. reflexivity. Qed.

Example includes_is_case_sensitive :
  includes "Google UK English Natural" "Natural" = true /\
  includes "natural voice" "Natural" = false.
Proof. split; reflexivity. Qed.

Example matchAll_punctuation_runs :
  matchAll "Wait... What?! ok" = ["Wait..."; " What?!"].
Proof. reflexivity. Qed.

Example matchSentences_without_punctuation :
  matchSentences "no punctuation" = ["no punctuation"].
Proof. reflexivity. Qed.

Example headings_at_line_starts :
  hasHeadings ("intro" ++ LF ++ "Chapter 1") = true /\
  hasHeadings "see Chapter 1" = false.
Proof. split; reflexivity. Qed.

(** Two short sentences in one paragraph: two sentences, nothing to
    report. *)
Example two_short_sentences :
  let text := "This is a short sentence. Another one!" in
  let sentences := segment (ElementNode [ElementNode [TextNode text]]) in
  sentences = ["This is a short sentence."; "Another one!"] /\
  analyze text sentences
  = {| issues := []; score := 100; riskLevel := "Low Risk";
       recommendation := None |}.
Proof. split; reflexivity. Qed.

End PrimitiveExamples.

(** ** Segmentation *)

Section SegmentationFacts.

(** *** The scan and the pattern *)

Lemma append_empty_r (s : string) : s ++ EmptyString = s.
Proof.
  induction s as [|c s IH]; [reflexivity|].
  change (String c s ++ EmptyString) with (String c (s ++ EmptyString)).
  rewrite IH. reflexivity.
Qed.

Lemma append_assoc (a b c : string) : a ++ b ++ c = (a ++ b) ++ c.
Proof.
  induction a as [|x a IH]; [reflexivity|].
  change (String x a ++ b ++ c) with (String x (a ++ b ++ c)).
  rewrite IH. reflexivity.
Qed.

Lemma span_app (p : ascii -> bool) (a s : string) :
  allChars p a = true ->
  span p (a ++ s) = (a ++ fst (span p s), snd (span p s)).
Proof.
  induction a as [|c a IH]; intros H.
  - change (EmptyString ++ s) with s. destruct (span p s); reflexivity.
  - simpl in H. apply andb_prop in H. destruct H as [Hc Ha].
    change (String c a ++ s) with (String c (a ++ s)).
    cbn [span]. rewrite Hc, (IH Ha). reflexivity.
Qed.

Lemma span_stops (p : ascii -> bool) (q : ascii -> bool) (a s : string) :
  (forall c, q c = true -> p c = false) ->
  Text.truthy a = true -> allChars q a = true ->
  span p (a ++ s) = (EmptyString, a ++ s).
Proof.
  intros Hpq Ht Ha. destruct a as [|c a]; [discriminate|].
  simpl in Ha. apply andb_prop in Ha. destruct Ha as [Hc _].
  change (String c a ++ s) with (String c (a ++ s)).
  cbn [span]. rewrite (Hpq c Hc). reflexivity.
Qed.

Lemma span_parts (p : ascii -> bool) (s a r : string) :
  span p s = (a, r) ->
  s = a ++ r /\ allChars p a = true /\
  match r with
  | EmptyString => True
  | String c _ => p c = false
  end.
Proof.
  revert a r. induction s as [|c s IH]; intros a r H; simpl in H.
  - inversion H; subst. repeat split.
  - destruct (p c) eqn:Hc.
    + destruct (span p s) as [a' r'] eqn:E. inversion H; subst.
      destruct (IH a' r eq_refl) as (Hs & Ha & Hr).
      change (String c a' ++ r) with (String c (a' ++ r)).
      cbn [allChars]. rewrite Hc, Ha, <- Hs. repeat split. exact Hr.
    + inversion H; subst. repeat split. exact Hc.
Qed.

(** Wherever the pattern has a match at the start of the text, with any
    choice of the two runs, the greedy attempt succeeds, and with that
    first run: giving back characters would not help. *)
Lemma matchAt_complete (body marks rest : string) :
  Text.truthy body = true -> allChars notTerminator body = true ->
  Text.truthy marks = true -> allChars isTerminator marks = true ->
  matchAt (body ++ marks ++ rest)
  = Some (body ++ marks ++ fst (span isTerminator rest),
          snd (span isTerminator rest)).
Proof.
  intros Hb Hbody Hm Hmarks. unfold matchAt.
  rewrite (span_app _ _ _ Hbody).
  rewrite (span_stops notTerminator isTerminator marks rest); try assumption.
  - cbn [fst snd]. rewrite append_empty_r, Hb.
    rewrite (span_app _ _ _ Hmarks). cbn [fst snd].
    destruct marks as [|c marks]; [discriminate|].
    change (Text.truthy (String c marks ++ fst (span isTerminator rest)))
      with true.
    cbv iota. rewrite append_assoc. reflexivity.
  - intros c Hc. unfold notTerminator. rewrite Hc. reflexivity.
Qed.

(** What the attempt answers is a match of the pattern: a non-empty run of
    non-terminators, then a non-empty run of terminators that the next
    character does not continue. *)
Lemma matchAt_sound (s m rest : string) :
  matchAt s = Some (m, rest) ->
  exists body marks,
    m = body ++ marks /\ s = body ++ marks ++ rest /\
    Text.truthy body = true /\ allChars notTerminator body = true /\
    Text.truthy marks = true /\ allChars isTerminator marks = true /\
    match rest with
    | EmptyString => True
    | String c _ => isTerminator c = false
    end.
Proof.
  unfold matchAt. destruct (span notTerminator s) as [body r1] eqn:E1.
  destruct (Text.truthy body) eqn:Tb; [|discriminate].
  destruct (span isTerminator r1) as [marks r2] eqn:E2.
  destruct (Text.truthy marks) eqn:Tm; [|discriminate].
  intros H; inversion H; subst.
  destruct (span_parts _ _ _ _ E1) as (Hs & Hbody & _).
  destruct (span_parts _ _ _ _ E2) as (Hr1 & Hmarks & Hrest).
  exists body, marks. subst. repeat split; assumption.
Qed.

(** *** The sentences *)

Lemma span_length (p : ascii -> bool) (s a r : string) :
  span p s = (a, r) -> String.length s = (String.length a + String.length r)%nat.
Proof.
  revert a r. induction s as [|c s IH]; intros a r H; simpl in H.
  - inversion H; reflexivity.
  - destruct (p c).
    + destruct (span p s) as [a' r'] eqn:E. inversion H; subst.
      simpl. rewrite (IH a' r eq_refl). reflexivity.
    + inversion H; subst. reflexivity.
Qed.

Lemma truthy_length (s : string) : Text.truthy s = true -> (0 < String.length s)%nat.
Proof. destruct s; simpl; [discriminate | lia]. Qed.

(** A successful attempt consumes at least two characters. *)
Lemma matchAt_consumes (s m rest : string) :
  matchAt s = Some (m, rest) -> (String.length rest < String.length s)%nat.
Proof.
  unfold matchAt. destruct (span notTerminator s) as [body r1] eqn:E1.
  destruct (Text.truthy body) eqn:Tb; [|discriminate].
  destruct (span isTerminator r1) as [marks r2] eqn:E2.
  destruct (Text.truthy marks) eqn:Tm; [|discriminate].
  intros H; inversion H; subst.
  apply span_length in E1. apply span_length in E2.
  apply truthy_length in Tb. apply truthy_length in Tm. lia.
Qed.

(** The scan never runs out of rounds: any supply of at least
    [String.length s] rounds gives the same matches. *)
Lemma matchAllFrom_enough (n m : nat) (s : string) :
  (String.length s <= n)%nat -> (String.length s <= m)%nat ->
  matchAllFrom n s = matchAllFrom m s.
Proof.
  revert m s. induction n as [|n IH]; intros m s Hn Hm.
  - destruct s; simpl in Hn; [|lia]. destruct m; reflexivity.
  - destruct m as [|m].
    + destruct s; simpl in Hm; [reflexivity|lia].
    + destruct s as [|c s]; [reflexivity|].
      cbn [matchAllFrom]. destruct (matchAt (String c s)) as [[mt rest]|] eqn:E.
      * apply matchAt_consumes in E. simpl in *. f_equal. apply IH; lia.
      * simpl in *. apply IH; lia.
Qed.

Lemma textSentences_nonempty (t : string) :
  Forall (fun s => s <> EmptyString) (textSentences t).
Proof.
  unfold textSentences. destruct (Text.truthy (trim t)); [|constructor].
  apply List.Forall_forall. intros s Hs. apply List.filter_In in Hs.
  destruct Hs as [_ Hs]. destruct s; [discriminate | congruence].
Qed.

(** Induction on nodes that reaches the children of an element. *)
Lemma node_rect_children (P : node -> Prop)
      (HT : forall t, P (TextNode t))
      (HE : forall cs, Forall P cs -> P (ElementNode cs))
      (HO : P OtherNode) : forall n, P n.
Proof.
  fix IH 1. intros [t|cs|].
  - apply HT.
  - apply HE. induction cs as [|c cs IHcs]; constructor; [apply IH | exact IHcs].
  - apply HO.
Qed.

(** The loop only ever appends to [this.sentences]. *)
Lemma extract_appends (n : node) :
  forall acc, extractSentencesFromElement n acc
              = (acc ++ extractSentencesFromElement n [])%list.
Proof.
  induction n as [t|cs IH|] using node_rect_children; intros acc;
    try (simpl; rewrite List.app_nil_r; reflexivity).
  simpl. revert acc.
  induction IH as [|c cs Hc _ IHcs]; intros acc.
  - rewrite List.app_nil_r. reflexivity.
  - destruct c as [t|cs'|].
    + rewrite IHcs. rewrite (IHcs ([] ++ _)%list). simpl.
      rewrite !List.app_assoc. reflexivity.
    + rewrite IHcs. rewrite (IHcs (extractSentencesFromElement _ [])).
      rewrite (Hc acc). rewrite !List.app_assoc. reflexivity.
    + apply IHcs.
Qed.

(** No sentence the segmenter produces is empty. *)
Lemma segment_nonempty (tempDiv : node) :
  Forall (fun s => s <> EmptyString) (segment tempDiv).
Proof.
  unfold segment.
  induction tempDiv as [t|cs IH|] using node_rect_children; try constructor.
  simpl. assert (Hnil : Forall (fun s : string => s <> EmptyString) []) by constructor.
  revert Hnil. generalize (@nil string) as acc.
  induction IH as [|c cs Hc _ IHcs]; intros acc Hacc; [exact Hacc|].
  apply IHcs. destruct c as [t|cs'|].
  - apply List.Forall_app. split; [exact Hacc | apply textSentences_nonempty].
  - rewrite extract_appends. apply List.Forall_app. split; [exact Hacc | exact Hc].
  - exact Hacc.
Qed.

Lemma append_empty (a b : string) :
  a ++ b = EmptyString -> a = EmptyString /\ b = EmptyString.
Proof. destruct a; simpl; [auto | discriminate]. Qed.

(** A tree without text, as the markup of an empty document is, has no
    sentences. *)
Lemma segment_without_text (tempDiv : node) :
  textContent tempDiv = EmptyString -> segment tempDiv = [].
Proof.
  unfold segment.
  induction tempDiv as [t|cs IH|] using node_rect_children; try reflexivity.
  simpl. generalize (@nil string) as acc.
  induction IH as [|c cs Hc _ IHcs]; intros acc H; [reflexivity|].
  apply append_empty in H. destruct H as [Hc0 Hcs].
  rewrite (IHcs _ Hcs). destruct c as [t|cs'|].
  - simpl in Hc0. subst t. apply List.app_nil_r.
  - rewrite extract_appends, (Hc Hc0). apply List.app_nil_r.
  - reflexivity.
Qed.

End SegmentationFacts.

(** C1. The claim: every non-white-space character of the text nodes
    appears in the produced sentences, so that joining the sentences with
    single spaces gives back the content up to white space.  The code loses
    the text after the last terminal punctuation of a text node: for a
    paragraph holding [Hello. World] the only sentence is [Hello.], and
    [World] appears in no sentence. *)
Theorem trailing_text_lost :
  let tempDiv := ElementNode [ElementNode [TextNode "Hello. World"]] in
  segment tempDiv = ["Hello."] /\
  nonWhiteSpace (textContent tempDiv) = "Hello.World" /\
  nonWhiteSpace (join " " (segment tempDiv)) = "Hello." /\
  nonWhiteSpace (join " " (segment tempDiv)) <> nonWhiteSpace (textContent tempDiv).
Proof. vm_compute. repeat split; discriminate. Qed.

(** ** Barrier analysis *)

Section AnalysisFacts.

(** The loop of [displayAccessibilityAnalysis] subtracts the penalties
    from 100, for any list of issues. *)
Lemma computeScore_penalties (l : list issue) :
  computeScore l
  = (100 - fold_right (fun i sum => penalty (severity i) + sum) 0 l)%Z.
Proof.
  unfold computeScore. generalize 100%Z as start.
  induction l as [|i l IH]; intros start; simpl.
  - lia.
  - rewrite IH. unfold penalize, penalty.
    destruct (String.eqb (severity i) "high");
      [|destruct (String.eqb (severity i) "medium")]; lia.
Qed.

(** The analysis finds at most one issue of each kind, in a fixed order. *)
Lemma detectIssues_shape (text : string) (sentences : list string) :
  detectIssues text sentences
  = ((if Number.gt (avgSentenceLength sentences) 20
      then [complexityIssue (avgSentenceLength sentences)] else [])
     ++ (if negb (hasHeadings text) && (10 <? List.length sentences)%nat
         then [structureIssue] else [])
     ++ (if Number.gt (avgParagraphLength text) 500
         then [densityIssue] else []))%list.
Proof.
  unfold detectIssues.
  destruct (Number.gt (avgSentenceLength sentences) 20);
    destruct (negb (hasHeadings text) && (10 <? List.length sentences)%nat);
    destruct (Number.gt (avgParagraphLength text) 500); reflexivity.
Qed.

(** On the issues of an analysis the code's score is the specified one
    (the lower bound 0 is never reached: the score is at least 69), and
    the code's risk level is the specified one for every score. *)
Lemma analyze_score (text : string) (sentences : list string) :
  score (analyze text sentences) = specScore (issues (analyze text sentences)).
Proof.
  unfold analyze, displayAccessibilityAnalysis. cbn [score issues].
  rewrite detectIssues_shape.
  destruct (Number.gt (avgSentenceLength sentences) 20);
    destruct (negb (hasHeadings text) && (10 <? List.length sentences)%nat);
    destruct (Number.gt (avgParagraphLength text) 500); reflexivity.
Qed.

Lemma computeRiskLevel_spec (s : Z) : computeRiskLevel s = specRiskLevel s.
Proof.
  unfold computeRiskLevel, specRiskLevel.
  destruct (Z.ltb_spec s 70), (Z.ltb_spec s 85), (Z.leb_spec 85 s),
    (Z.leb_spec 70 s); try reflexivity; lia.
Qed.

(** An average of exactly 25 is above 20. *)
Lemma average_25_complex (sentences : list string) :
  Number.strictEq (avgSentenceLength sentences) (Number.ofZ 25) = true ->
  Number.gt (avgSentenceLength sentences) 20 = true.
Proof.
  destruct (avgSentenceLength sentences) as [| | |q]; simpl; try discriminate.
  intros H. apply Qeq_bool_iff in H.
  destruct (Qle_bool q (inject_Z 20)) eqn:E; [|reflexivity].
  apply Qle_bool_iff in E. rewrite H in E.
  exfalso. revert E. unfold Qle. simpl. lia.
Qed.

End AnalysisFacts.

(** C2, the part that fails.  The claim: a 15-sentence document without
    heading markers and with 25 words per sentence on average yields the
    Complexity and Structure issues only, score 77, Medium.  Fifteen such
    sentences written as one paragraph of 764 characters also trigger Text
    Density: three issues, score 69, High Risk. *)
Lemma scenario_B_one_paragraph :
  let text := Samples.oneParagraph in
  let sentences := segment Samples.oneParagraphDiv in
  List.length sentences = 15%nat /\
  hasHeadings text = false /\
  Number.strictEq (avgSentenceLength sentences) (Number.ofZ 25) = true /\
  List.map type (issues (analyze text sentences))
    = ["Sentence Complexity"; "Document Structure"; "Text Density"] /\
  score (analyze text sentences) = 69%Z /\
  riskLevel (analyze text sentences) = "High Risk" /\
  ~ (score (analyze text sentences) = 77%Z /\
     riskLevel (analyze text sentences) = "Medium Risk").
Proof. vm_compute. repeat split; intros [H _]; discriminate. Qed.

(** C2, as the code has it.  For every analysis the score is 100 minus the
    penalties of the issues found (15 for high, 8 for medium, 3 for any
    other severity), not below 0, and the risk level is Low from 85, Medium
    from 70 to 84, High below 70.  A 15-sentence document without heading
    markers and with 25 words per sentence on average yields the Complexity
    and Structure issues; when its text has at most 500 characters per
    paragraph on average these are the only issues, the score is 77 and the
    risk Medium; otherwise Text Density is found as well, the score is 69
    and the risk High. *)
Theorem analysis_score_and_risk (text : string) (sentences : list string) :
  let r := analyze text sentences in
  (score r = specScore (issues r) /\ riskLevel r = specRiskLevel (score r)) /\
  (List.length sentences = 15%nat ->
   hasHeadings text = false ->
   Number.strictEq (avgSentenceLength sentences) (Number.ofZ 25) = true ->
   (Number.gt (avgParagraphLength text) 500 = false ->
    issues r = [complexityIssue (avgSentenceLength sentences); structureIssue] /\
    score r = 77%Z /\ riskLevel r = "Medium Risk") /\
   (Number.gt (avgParagraphLength text) 500 = true ->
    issues r = [complexityIssue (avgSentenceLength sentences); structureIssue;
                densityIssue] /\
    score r = 69%Z /\ riskLevel r = "High Risk")).
Proof.
  intros r. split.
  - split; [apply analyze_score | apply computeRiskLevel_spec].
  - intros Hlen Hhead Havg. apply average_25_complex in Havg.
    subst r. unfold analyze, displayAccessibilityAnalysis.
    rewrite detectIssues_shape, Havg, Hhead, Hlen.
    split; intros Hd; rewrite Hd; repeat split; reflexivity.
Qed.

Lemma analysis_score_and_risk_witness :
  score (analyze Samples.twoParagraphs (segment Samples.twoParagraphsDiv)) = 77%Z /\
  riskLevel (analyze Samples.twoParagraphs (segment Samples.twoParagraphsDiv))
    = "Medium Risk".
Proof.
  destruct (analysis_score_and_risk Samples.twoParagraphs
              (segment Samples.twoParagraphsDiv)) as [_ H].
  destruct H as [H _]; [vm_compute; reflexivity ..|].
  destruct H as [_ H]; [vm_compute; reflexivity|]. exact H.
Defined.

(** The empty document, whose markup has no nodes, has no sentences; both
    averages are 0/0, which is NaN and compares false with 20 and with
    500: the report has no issue, score 100 and Low Risk. *)
Lemma analyze_empty_document :
  segment (ElementNode []) = [] /\
  avgSentenceLength (segment (ElementNode [])) = Number.NaN /\
  avgParagraphLength EmptyString = Number.NaN /\
  Number.gt Number.NaN 20 = false /\
  Number.gt Number.NaN 500 = false /\
  analyze EmptyString (segment (ElementNode []))
  = {| issues := []; score := 100; riskLevel := "Low Risk";
       recommendation := None |}.
Proof. repeat split. Qed.

(** C7.  The claim: the analysis performs no division by zero, the Density
    signal of a document without text being suppressed.  The division of
    the Density test has no guard.  For a text of one space (or of one
    line feed) the markup has no nodes and there are no sentences, and no
    paragraph is left after the blank ones are dropped: the average is the
    length divided by 0, infinite, which exceeds 500.  The report of this
    textless document holds the Text Density issue, with score 92, where
    the empty text next to it gets no issue and score 100. *)
Theorem blank_text_reports_density :
  let r := analyze " " (segment (ElementNode [])) in
  segment (ElementNode []) = [] /\
  trim " " = EmptyString /\
  paragraphCount " " = 0%Z /\
  avgParagraphLength " " = Number.PosInf /\
  Number.gt (avgParagraphLength " ") 500 = true /\
  issues r = [densityIssue] /\
  score r = 92%Z /\ riskLevel r = "Low Risk" /\
  issues (analyze LF (segment (ElementNode []))) = [densityIssue] /\
  issues (analyze EmptyString (segment (ElementNode []))) = [].
Proof. repeat split. Qed.

(** The eight outcomes of the three tests, on a reader given field by
    field. *)
Ltac analysis_simpl :=
  cbn -[Nat.ltb andb negb hasHeadings avgSentenceLength avgParagraphLength
        Number.gt].

Ltac analysis_cases :=
  analysis_simpl;
  match goal with
  | |- context [Number.gt (avgSentenceLength ?s) 20] =>
      destruct (Number.gt (avgSentenceLength s) 20)
  end;
  analysis_simpl;
  match goal with
  | |- context [negb (hasHeadings ?t) && ?b] =>
      destruct (negb (hasHeadings t) && b)
  end;
  analysis_simpl;
  match goal with
  | |- context [Number.gt (avgParagraphLength ?t) 500] =>
      destruct (Number.gt (avgParagraphLength t) 500)
  end;
  analysis_simpl;
  reflexivity.

Section DeterminismFacts.

(** The mutation of the object in closed form: the issue list is replaced
    by what the three tests find, whatever it held before, and the report
    on display is the one of these issues. *)
Lemma analyzeAccessibility_closed (text : string) (r : reader) :
  analyzeAccessibility text r
  = set_analysisResults (Some (analyze text (sentences r)))
      (set_accessibilityIssues (detectIssues text (sentences r)) r).
Proof.
  unfold analyzeAccessibility, analyze, detectIssues, pushIssue.
  destruct r; analysis_cases.
Qed.

Lemma analyzeAccessibility_issues (text : string) (r : reader) :
  accessibilityIssues (analyzeAccessibility text r)
  = detectIssues text (sentences r).
Proof. rewrite analyzeAccessibility_closed. reflexivity. Qed.

Lemma analyzeAccessibility_results (text : string) (r : reader) :
  analysisResults (analyzeAccessibility text r)
  = Some (analyze text (sentences r)).
Proof. rewrite analyzeAccessibility_closed. reflexivity. Qed.

Lemma analyzeAccessibility_sentences (text : string) (r : reader) :
  sentences (analyzeAccessibility text r) = sentences r.
Proof. rewrite analyzeAccessibility_closed. reflexivity. Qed.

Lemma analyzeAccessibility_twice (text : string) (r : reader) :
  analyzeAccessibility text (analyzeAccessibility text r)
  = analyzeAccessibility text r.
Proof. rewrite !analyzeAccessibility_closed. reflexivity. Qed.

End DeterminismFacts.

(** C9.  The report is a function of the text and of the sentences alone:
    two readers holding the same sentences, whatever else differs between
    them (an issue list left by an earlier analysis, the playback state,
    the settings), get the same issues in the same order, the same score
    and the same risk level for the same text, namely those of
    [analyze text sentences]; and analysing a second time changes nothing. *)
Theorem analysis_deterministic (text : string) (r1 r2 : reader) :
  sentences r1 = sentences r2 ->
  analysisResults (analyzeAccessibility text r1)
    = Some (analyze text (sentences r1)) /\
  analysisResults (analyzeAccessibility text r2)
    = analysisResults (analyzeAccessibility text r1) /\
  accessibilityIssues (analyzeAccessibility text r2)
    = accessibilityIssues (analyzeAccessibility text r1) /\
  analyzeAccessibility text (analyzeAccessibility text r1)
    = analyzeAccessibility text r1.
Proof.
  intros H. rewrite !analyzeAccessibility_results, !analyzeAccessibility_issues, H.
  repeat split. apply analyzeAccessibility_twice.
Qed.

Lemma analysis_deterministic_witness :
  let r1 := processDocument Samples.oneParagraphDiv Samples.fresh in
  let r2 := toggleAccessibilityMode (analyzeAccessibility " " r1) in
  accessibilityIssues r1 <> accessibilityIssues r2 /\
  analysisResults (analyzeAccessibility Samples.oneParagraph r2)
    = analysisResults (analyzeAccessibility Samples.oneParagraph r1).
Proof.
  intros r1 r2. split.
  - vm_compute. discriminate.
  - apply (analysis_deterministic Samples.oneParagraph r1 r2).
    vm_compute. reflexivity.
Defined.

(** ** Voice selection *)

Section VoiceFacts.

(** No voice is chosen only when there is none to choose from. *)
Lemma preferredVoice_none (voices : list SpeechSynthesisVoice) :
  preferredVoice voices = None <-> voices = [].
Proof.
  unfold preferredVoice. split.
  - destruct (List.find preferred voices); [discriminate|].
    destruct (List.find english voices); [discriminate|].
    destruct voices; [reflexivity | discriminate].
  - intros ->. reflexivity.
Qed.

(** The chosen voice is one of the candidates. *)
Lemma preferredVoice_candidate (voices : list SpeechSynthesisVoice) v :
  preferredVoice voices = Some v -> In v voices.
Proof.
  unfold preferredVoice.
  destruct (List.find preferred voices) eqn:E1.
  - intros H; inversion H; subst. apply List.find_some in E1. tauto.
  - destruct (List.find english voices) eqn:E2.
    + intros H; inversion H; subst. apply List.find_some in E2. tauto.
    + destruct voices; [discriminate|]. intros H; inversion H; subst. left. reflexivity.
Qed.

(** [find] answers the first element that passes the test. *)
Lemma find_first {A} (p : A -> bool) (before after : list A) (v : A) :
  p v = true ->
  forallb (fun w => negb (p w)) before = true ->
  List.find p (before ++ v :: after) = Some v.
Proof.
  intros Hv Hb. induction before as [|w before IH]; simpl in *.
  - rewrite Hv. reflexivity.
  - apply andb_prop in Hb. destruct Hb as [Hw Hb].
    apply negb_true_iff in Hw. rewrite Hw. apply IH, Hb.
Qed.

Lemma find_none_forallb {A} (p : A -> bool) (l : list A) :
  forallb (fun w => negb (p w)) l = true -> List.find p l = None.
Proof.
  induction l as [|w l IH]; simpl; [reflexivity|].
  intros H. apply andb_prop in H. destruct H as [Hw Hl].
  apply negb_true_iff in Hw. rewrite Hw. apply IH, Hl.
Qed.

(** The first search takes the first voice that has a keyword in its name
    or is a local English one: the voices before the chosen one are
    neither. *)
Lemma preferredVoice_first (before after : list SpeechSynthesisVoice) v :
  preferred v = true ->
  forallb (fun w => negb (preferred w)) before = true ->
  preferredVoice (before ++ v :: after) = Some v.
Proof.
  intros Hv Hb. unfold preferredVoice.
  rewrite (find_first _ _ _ _ Hv Hb). reflexivity.
Qed.

End VoiceFacts.

(** C3.  The claim: a voice with a keyword in its name is chosen over any
    local English voice without one, wherever they stand in the list.  The
    code tests the keywords and "English and local" in one [find], so the
    two kinds share a tier: with a local English voice listed before a
    voice named Natural, the local voice is chosen and the Natural one is
    not. *)
Lemma local_english_listed_first_wins :
  keywordNamed Samples.aria = true /\
  keywordNamed Samples.david = false /\
  english Samples.david && localService Samples.david = true /\
  preferredVoice [Samples.david; Samples.aria] = Some Samples.david /\
  preferredVoice [Samples.david; Samples.aria] <> Some Samples.aria.
Proof. repeat split. discriminate. Qed.

(** What the code does for every list.  Three tiers, first match wins:
    (1) the first voice whose name contains one of Natural, Enhanced, Premium, Neural or
    whose language starts with "en" and which is local: between a
    keyword-named voice and a local English one the voice listed first is
    chosen; (2) the first voice whose language starts with "en"; (3) the
    first voice of the list.  The result is none only for the empty list. *)
Theorem voice_tiers (before after : list SpeechSynthesisVoice)
        (v : SpeechSynthesisVoice) :
  let voices := (before ++ v :: after)%list in
  preferred v = keywordNamed v || (english v && localService v) /\
  (preferred v = true ->
   forallb (fun w => negb (preferred w)) before = true ->
   preferredVoice voices = Some v) /\
  (english v = true ->
   forallb (fun w => negb (english w)) before = true ->
   forallb (fun w => negb (preferred w)) voices = true ->
   preferredVoice voices = Some v) /\
  (before = [] ->
   forallb (fun w => negb (english w)) voices = true ->
   forallb (fun w => negb (preferred w)) voices = true ->
   preferredVoice voices = Some v) /\
  preferredVoice voices <> None /\
  preferredVoice [] = None.
Proof.
  intros voices. subst voices. repeat apply conj.
  - reflexivity.
  - apply preferredVoice_first.
  - intros Hv Hb Hn. unfold preferredVoice.
    rewrite (find_none_forallb _ _ Hn). rewrite (find_first _ _ _ _ Hv Hb).
    reflexivity.
  - intros -> He Hn. unfold preferredVoice.
    rewrite (find_none_forallb _ _ Hn), (find_none_forallb _ _ He). reflexivity.
  - intros H. apply preferredVoice_none in H. destruct before; discriminate.
  - reflexivity.
Qed.

Lemma voice_tiers_witness :
  preferredVoice [Samples.aria; Samples.david] = Some Samples.aria /\
  preferredVoice [Samples.david; Samples.aria] = Some Samples.david.
Proof.
  split.
  - apply (proj1 (proj2 (voice_tiers [] [Samples.david] Samples.aria)));
      reflexivity.
  - apply (proj1 (proj2 (voice_tiers [] [Samples.aria] Samples.david)));
      reflexivity.
Defined.

(** ** Settings *)

(** C6.  The claim: a saved record, loaded at the next start, restores the
    same mode and the same speed.  The speed comes back (a slider's value
    is never empty); the mode comes back negated: the constructor starts
    with the mode on and [loadSettings] toggles it when the saved mode is
    on, and leaves it on when the saved mode is off. *)
Theorem saved_mode_comes_back_negated
        (r : reader) (slider : string) (engineVoices : list SpeechSynthesisVoice) :
  let stored := localStorage (saveSettings r) in
  let r' := construct stored slider engineVoices in
  accessibilityMode r' = negb (accessibilityMode r) /\
  speedSlider r' = (if Text.truthy (speedSlider r) then speedSlider r else slider).
Proof.
  unfold construct, loadSettings, saveSettings. cbn.
  rewrite lookup_insert_eq. cbn.
  destruct (accessibilityMode r); destruct (speedSlider r); cbn; split; reflexivity.
Qed.

(** ** Playback *)

(** Booleans of the guards, read as the comparisons they decide. *)
Ltac guards :=
  repeat match goal with
         | H : (_ || _) = true |- _ => apply orb_true_iff in H
         | H : (_ || _) = false |- _ => apply orb_false_iff in H; destruct H
         | H : (_ && _) = true |- _ => apply andb_true_iff in H; destruct H
         | H : (_ && _) = false |- _ => apply andb_false_iff in H
         | H : negb _ = true |- _ => apply negb_true_iff in H
         | H : negb _ = false |- _ => apply negb_false_iff in H
         | H : (_ <? _)%Z = true |- _ => apply Z.ltb_lt in H
         | H : (_ <? _)%Z = false |- _ => apply Z.ltb_ge in H
         | H : (_ <=? _)%Z = true |- _ => apply Z.leb_le in H
         | H : (_ <=? _)%Z = false |- _ => apply Z.leb_gt in H
         | H : (_ =? _)%Z = true |- _ => apply Z.eqb_eq in H
         | H : (_ =? _)%Z = false |- _ => apply Z.eqb_neq in H
         end.

(** Every branch of a handler, on a reader given field by field. *)
Ltac branches :=
  cbn in *;
  repeat match goal with
         | |- context [if ?c then _ else _] => destruct c eqn:?; cbn in *
         | |- context [match ?x with Some _ => _ | None => _ end] =>
             destruct x eqn:?; cbn in *
         end;
  guards.

Section PlaybackFacts.

Variable parseFloat : string -> Number.number.

Lemma construct_fields storage slider engineVoices :
  let r := construct storage slider engineVoices in
  sentences r = [] /\ currentSentence r = 0%Z /\ isPlaying r = false /\
  utterance r = None /\ queue r = [] /\ cancelled r = [] /\ timers r = O.
Proof.
  unfold construct, loadSettings. cbn.
  destruct (storage !! storageKey) as [parsed|]; cbn; [|repeat split].
  destruct (Json.truthy (get "accessibilityMode" parsed));
    destruct (Json.truthy (get "speed" parsed)); cbn; repeat split.
Qed.

Lemma construct_indexBounded storage slider engineVoices :
  indexBounded (construct storage slider engineVoices).
Proof.
  destruct (construct_fields storage slider engineVoices)
    as (Hs & Hc & Hp & Hu & Hq & _).
  unfold indexBounded, sentenceTotal. rewrite Hs, Hc, Hp, Hq. cbn.
  repeat split; try lia; try discriminate; congruence.
Qed.

Lemma indexBounded_safe r : indexBounded r -> indexSafe r.
Proof. unfold indexBounded, indexSafe. tauto. Qed.

Lemma handle_indexSafe r e r' :
  indexSafe r -> handle parseFloat r e = Some r' -> indexSafe r'.
Proof.
  unfold indexSafe, sentenceTotal. intros [H0 Hp] H.
  destruct r; destruct e; cbn in *;
    repeat match type of H with
           | context [match ?x with _ => _ end] => destruct x eqn:?; cbn in H
           end;
    try discriminate; inversion H; subst; clear H;
    unfold togglePlayback, startReading, readCurrentSentence, onend, onerror,
      updateSpeed, arrowRight, arrowLeft, handleFileUpload, processDocument,
      resetPlayback, toggleAccessibilityMode, showError, pauseReading,
      sentenceTotal;
    try rewrite analyzeAccessibility_closed;
    branches; split; try lia; try discriminate; intros; try lia;
    try (apply Hp in H; lia); try (specialize (Hp eq_refl); lia).
Qed.


Lemma handle_indexBounded r e r' :
  orderly e = true ->
  indexBounded r -> handle parseFloat r e = Some r' -> indexBounded r'.
Proof.
  unfold indexBounded, sentenceTotal. intros He (H0 & Hp & Hq) H.
  destruct r; destruct e; try discriminate He; cbn in *;
    repeat match type of H with
           | context [match ?x with _ => _ end] => destruct x eqn:?; cbn in H
           end;
    try discriminate; inversion H; subst; clear H;
    unfold togglePlayback, startReading, readCurrentSentence, onend, onerror,
      updateSpeed, arrowRight, arrowLeft, handleFileUpload, processDocument,
      resetPlayback, toggleAccessibilityMode, showError, pauseReading,
      sentenceTotal;
    try rewrite analyzeAccessibility_closed;
    branches;
    try (assert (Hq' := Hq ltac:(discriminate)); destruct Hq' as [Hq1 Hq2]);
    repeat split; try lia; try discriminate; try congruence;
    intros; try lia; try congruence;
    try (apply Hp in H; lia); try (specialize (Hp eq_refl); lia);
    try (destruct (Hq ltac:(assumption)); (lia || congruence)).
Qed.

Lemma handle_utterancesFixed r e r' :
  utterancesFixed r -> handle parseFloat r e = Some r' -> utterancesFixed r'.
Proof.
  unfold utterancesFixed. intros [Hq Hc] H.
  destruct r; destruct e; cbn in *;
    repeat match type of H with
           | context [match ?x with _ => _ end] => destruct x eqn:?; cbn in H
           end;
    try discriminate; inversion H; subst; clear H;
    unfold togglePlayback, startReading, readCurrentSentence, onend, onerror,
      updateSpeed, arrowRight, arrowLeft, handleFileUpload, processDocument,
      resetPlayback, toggleAccessibilityMode, showError, pauseReading,
      sentenceTotal;
    try rewrite analyzeAccessibility_closed;
    branches;
    try (apply Forall_inv_tail in Hq);
    split;
    repeat first [ assumption
                 | apply Forall_nil_2
                 | apply Forall_app_2
                 | apply Forall_delete
                 | apply Forall_cons_2; [split; reflexivity|] ].
Qed.

Lemma run_utterancesFixed es : forall r r',
  utterancesFixed r -> run parseFloat es r = Some r' -> utterancesFixed r'.
Proof.
  induction es as [|e es IH]; intros r r' Hr H; simpl in H.
  - inversion H; subst; exact Hr.
  - destruct (handle parseFloat r e) as [r1|] eqn:E; [|discriminate].
    eapply IH; [|exact H]. eapply handle_utterancesFixed; eauto.
Qed.

Lemma run_indexSafe es : forall r r',
  indexSafe r -> run parseFloat es r = Some r' -> indexSafe r'.
Proof.
  induction es as [|e es IH]; intros r r' Hr H; simpl in H.
  - inversion H; subst; exact Hr.
  - destruct (handle parseFloat r e) as [r1|] eqn:E; [|discriminate].
    eapply IH; [|exact H]. eapply handle_indexSafe; eauto.
Qed.

Lemma run_indexBounded es : forall r r',
  forallb orderly es = true ->
  indexBounded r -> run parseFloat es r = Some r' -> indexBounded r'.
Proof.
  induction es as [|e es IH]; intros r r' Hes Hr H; simpl in H, Hes.
  - inversion H; subst; exact Hr.
  - apply andb_true_iff in Hes. destruct Hes as [He Hes].
    destruct (handle parseFloat r e) as [r1|] eqn:E; [|discriminate].
    eapply IH; [exact Hes| |exact H]. eapply handle_indexBounded; eauto.
Qed.

End PlaybackFacts.

(** C4, the part that fails.  The claim: the index never exceeds the number
    of sentences.  With an engine that reports the end of utterances it was
    told to cancel, one change of speed while the first of two sentences is
    playing ends with the index at 3. *)
Lemma index_exceeds_length :
  let r := Samples.session Samples.speedChangeWhilePlaying in
  reachable Samples.parseOne r /\
  sentenceTotal r = 2%Z /\
  currentSentence r = 3%Z /\
  ~ (0 <= currentSentence r <= sentenceTotal r)%Z.
Proof.
  intros r. split.
  - exists ∅, "1", [], Samples.speedChangeWhilePlaying. vm_compute. reflexivity.
  - vm_compute. repeat split. intros [_ H]. apply H. reflexivity.
Qed.

(** C4, as the code has it.  At every point a session can reach the index
    is at least 0, and while the reader is playing it is below the number
    of sentences: an index equal to that number is only met when playback
    has stopped.  When the engine never reports the end of an utterance it
    was told to cancel, the index is also at most the number of sentences.
    The code keeps no status besides [isPlaying]. *)
Theorem playback_index_invariant
        (parseFloat : string -> Number.number) (r : reader) :
  (reachable parseFloat r ->
   (0 <= currentSentence r)%Z /\
   (isPlaying r = true -> (currentSentence r < sentenceTotal r)%Z)) /\
  (reachableOrderly parseFloat r ->
   (0 <= currentSentence r <= sentenceTotal r)%Z /\
   (currentSentence r = sentenceTotal r -> isPlaying r = false)).
Proof.
  split.
  - intros (storage & slider & vs & es & H).
    eapply run_indexSafe; [|exact H].
    apply indexBounded_safe, construct_indexBounded.
  - intros (storage & slider & vs & es & Hes & H).
    assert (Hb : indexBounded r).
    { eapply run_indexBounded; [exact Hes| |exact H]. apply construct_indexBounded. }
    destruct Hb as (Hb & Hp & _). split; [exact Hb|].
    intros Heq. destruct (isPlaying r); [|reflexivity].
    specialize (Hp eq_refl). lia.
Qed.

Lemma playback_index_invariant_witness :
  let r := Samples.session Samples.playedToTheEnd in
  (0 <= currentSentence r <= sentenceTotal r)%Z /\
  (currentSentence r = sentenceTotal r -> isPlaying r = false).
Proof.
  intros r.
  apply (proj2 (playback_index_invariant Samples.parseOne r)).
  exists ∅, "1", [], Samples.playedToTheEnd. split; vm_compute; reflexivity.
Defined.

(** C5, the part that fails.  The claim: from Finished, [start()] goes to
    Playing and sets the index back to 0.  After the only sentence of a
    document has been played, the index equals the number of sentences and
    the reader is not playing; [startReading] then leaves it not playing,
    with the index still 1 and nothing given to the engine. *)
Lemma start_when_finished :
  let r := Samples.session Samples.playedToTheEnd in
  let r' := startReading Samples.parseOne r in
  reachable Samples.parseOne r /\
  isPlaying r = false /\ sentenceTotal r = 1%Z /\ currentSentence r = 1%Z /\
  isPlaying r' = false /\ currentSentence r' = 1%Z /\ queue r' = [] /\
  ~ (isPlaying r' = true /\ currentSentence r' = 0%Z).
Proof.
  intros r r'. split.
  - exists ∅, "1", [], Samples.playedToTheEnd. vm_compute. reflexivity.
  - vm_compute. repeat split. intros [H _]. discriminate.
Qed.

(** C5, as the code has it.  On a reader that is not playing,
    [startReading] never changes the index.  Without sentences it
    announces that no document is loaded and changes nothing else.  With
    sentences and the index inside the document it starts playing and
    gives the engine the sentence at the index as it stands, highlighting
    the span with that index when the page has one.  With the
    index at or past the end it does what [pauseReading] does and leaves
    the reader not playing. *)
Theorem startReading_effect
        (parseFloat : string -> Number.number) (r : reader) :
  isPlaying r = false ->
  let r' := startReading parseFloat r in
  currentSentence r' = currentSentence r /\
  (sentenceTotal r = 0%Z ->
   r' = announceToScreenReader
          "No document loaded. Please upload a file first." r) /\
  (sentenceTotal r <> 0%Z -> (currentSentence r < sentenceTotal r)%Z ->
   isPlaying r' = true /\
   utterance r' = Some (newUtterance parseFloat r) /\
   queue r' = (queue r ++ [newUtterance parseFloat r])%list /\
   text (newUtterance parseFloat r) = sentenceAt r (currentSentence r) /\
   highlighted r' = spanIndex (currentSentence r) (spans r)) /\
  (sentenceTotal r <> 0%Z -> (sentenceTotal r <= currentSentence r)%Z ->
   isPlaying r' = false /\ r' = pauseReading r).
Proof.
  intros Hp r'. subst r'.
  unfold startReading, readCurrentSentence, pauseReading, sentenceTotal.
  destruct r; cbn in *. subst.
  repeat split; intros; branches; try lia; try reflexivity; try congruence.
Qed.

Lemma startReading_effect_witness :
  let r := Samples.session Samples.pausedOnFirst in
  let r' := startReading Samples.parseOne r in
  isPlaying r' = true /\ currentSentence r' = currentSentence r /\
  highlighted r' = Some 0%Z.
Proof.
  intros r r'.
  destruct (startReading_effect Samples.parseOne r) as (H1 & _ & H3 & _);
    [vm_compute; reflexivity|].
  destruct H3 as (Hp & _ & _ & _ & Hh);
    [vm_compute; discriminate | vm_compute; reflexivity |].
  split; [exact Hp|]. split; [exact H1 | exact Hh].
Defined.

(** C8, the part that fails.  The claim: an end or error event of an
    utterance whose sentence is no longer the current one changes nothing.
    While the fourth of six sentences (index 3) is playing, [ArrowRight]
    moves the index to 4 and cancels the utterance; its end event, if the
    engine sends one, moves the index on to 5, and its error event stops
    playback. *)
Lemma late_event_acts :
  let r := Samples.session Samples.seekWhilePlaying in
  let r1 := Samples.session Samples.lateEndAfterSeek in
  let r2 := Samples.session Samples.lateErrorAfterSeek in
  reachable Samples.parseOne r /\
  currentSentence r = 4%Z /\ isPlaying r = true /\
  List.map sentenceIndex (cancelled r) = [3%Z] /\
  handle Samples.parseOne r (LateEnd 0) = Some r1 /\
  currentSentence r1 = 5%Z /\ r1 <> r /\
  handle Samples.parseOne r (LateError 0) = Some r2 /\
  isPlaying r2 = false /\ r2 <> r.
Proof.
  intros r r1 r2. split.
  { exists ∅, "1", [], Samples.seekWhilePlaying. vm_compute. reflexivity. }
  repeat apply conj; try (vm_compute; reflexivity).
  - intros H. apply (f_equal currentSentence) in H. vm_compute in H. discriminate.
  - intros H. apply (f_equal isPlaying) in H. vm_compute in H. discriminate.
Qed.

(** C8, as the code has it.  The handlers compare no index: the end event
    of any utterance the engine still reports on, whichever sentence it was
    made for, adds one to the index, and its error event stops playback;
    only the engine's silence after [cancel] keeps such events away. *)
Theorem engine_events_not_compared
        (parseFloat : string -> Number.number) (r : reader) (k : nat)
        (u : SpeechSynthesisUtterance) :
  cancelled r !! k = Some u ->
  (exists r', handle parseFloat r (LateEnd k) = Some r' /\
              currentSentence r' = (currentSentence r + 1)%Z) /\
  (exists r', handle parseFloat r (LateError k) = Some r' /\
              currentSentence r' = currentSentence r /\ isPlaying r' = false).
Proof.
  intros H. cbn. rewrite H. split; eexists; (split; [reflexivity|]).
  - unfold onend, pauseReading, sentenceTotal. destruct r; branches; reflexivity.
  - unfold onerror, pauseReading. destruct r; branches; split; reflexivity.
Qed.

Lemma engine_events_not_compared_witness :
  let r := Samples.session Samples.seekWhilePlaying in
  exists r', handle Samples.parseOne r (LateEnd 0) = Some r' /\
             currentSentence r' = (currentSentence r + 1)%Z.
Proof.
  intros r.
  refine (proj1 (engine_events_not_compared Samples.parseOne r 0
                   (newUtterance Samples.parseOne
                      (Samples.session Samples.playingFourth)) _)).
  vm_compute. reflexivity.
Defined.

(** C10.  Every utterance given to the engine in a session has pitch 1.1
    and volume 1.  The utterance [readCurrentSentence] makes takes its rate
    from the slider's value at that moment.  Moving the slider while the
    reader is not playing changes the slider's value and nothing else (no
    utterance, no timer), and the utterance made when playback starts again
    has the rate of the new value. *)
Theorem utterance_settings
        (parseFloat : string -> Number.number) (r : reader) :
  (reachable parseFloat r ->
   Forall fixedVoiceSettings (queue r) /\ Forall fixedVoiceSettings (cancelled r)) /\
  (isPlaying r = true -> (currentSentence r < sentenceTotal r)%Z ->
   let r' := readCurrentSentence parseFloat r in
   exists u, utterance r' = Some u /\ queue r' = (queue r ++ [u])%list /\
             fixedVoiceSettings u /\ rate u = parseFloat (speedSlider r)) /\
  (isPlaying r = false ->
   forall value,
     handle parseFloat r (SlideSpeed value) = Some (set_speedSlider value r) /\
     ((currentSentence r < sentenceTotal r)%Z -> sentenceTotal r <> 0%Z ->
      let r' := startReading parseFloat (set_speedSlider value r) in
      exists u, utterance r' = Some u /\ queue r' = (queue r ++ [u])%list /\
                fixedVoiceSettings u /\ rate u = parseFloat value)).
Proof.
  repeat apply conj.
  - intros (storage & slider & vs & es & H).
    eapply run_utterancesFixed; [|exact H].
    destruct (construct_fields storage slider vs) as (_ & _ & _ & _ & Hq & Hc & _).
    unfold utterancesFixed. rewrite Hq, Hc. split; constructor.
  - intros Hp Hi r'. subst r'. unfold readCurrentSentence, sentenceTotal in *.
    destruct r; cbn in *. subst. branches; try lia.
    eexists. repeat split.
  - intros Hp value. split.
    + unfold handle, updateSpeed. destruct r; cbn in *. subst.
      destruct utterance0; reflexivity.
    + intros Hi Hn r'. subst r'.
      unfold startReading, readCurrentSentence, sentenceTotal in *.
      destruct r; cbn in *. subst. branches; try lia.
      eexists. repeat split.
Qed.

Lemma utterance_settings_witness :
  let r := Samples.session Samples.pausedOnFirst in
  let r' := startReading Samples.parseOne (set_speedSlider "2" r) in
  exists u, utterance r' = Some u /\ queue r' = (queue r ++ [u])%list /\
            fixedVoiceSettings u /\ rate u = Samples.parseOne "2".
Proof.
  intros r.
  destruct (utterance_settings Samples.parseOne r) as (_ & _ & H).
  destruct (H ltac:(vm_compute; reflexivity) "2") as [_ H2].
  apply H2; vm_compute; [reflexivity | discriminate].
Defined.

Import Walker TextMore Engine Spans Pdf.

(* ================================================================= *)
(** * Further properties *)

(** ** Strings *)

Section StringFacts.

Lemma append_cons (c : ascii) (a b : string) :
  String c a ++ b = String c (a ++ b).
Proof. reflexivity. Qed.

Lemma rev_append (a b : string) : Text.rev (a ++ b) = Text.rev b ++ Text.rev a.
Proof.
  induction a as [|c a IH].
  - change (EmptyString ++ b) with b. cbn [Text.rev].
    rewrite append_empty_r. reflexivity.
  - rewrite append_cons. cbn [Text.rev]. rewrite IH, append_assoc. reflexivity.
Qed.

Lemma rev_involutive (s : string) : Text.rev (Text.rev s) = s.
Proof.
  induction s as [|c s IH]; [reflexivity|].
  cbn [Text.rev]. rewrite rev_append, IH. reflexivity.
Qed.

Lemma trimStart_clean (s : string) : startsClean (trimStart s).
Proof.
  induction s as [|c s IH]; simpl; [exact I|].
  destruct (isWhiteSpace c) eqn:E; [exact IH | exact E].
Qed.

Lemma trimStart_of_clean (s : string) : startsClean s -> trimStart s = s.
Proof. destruct s as [|c s]; simpl; [reflexivity|]. intros ->. reflexivity. Qed.

(** [trimStart] keeps everything from a character that is not white
    space. *)
Lemma trimStart_keeps (a : string) (c : ascii) (b : string) :
  isWhiteSpace c = false ->
  exists a', trimStart (a ++ String c b) = a' ++ String c b /\ startsClean (a' ++ String c b).
Proof.
  intros Hc. induction a as [|x a IH].
  - exists EmptyString. change (EmptyString ++ String c b) with (String c b).
    split; [|exact Hc]. cbn [trimStart]. rewrite Hc. reflexivity.
  - rewrite append_cons. cbn [trimStart]. destruct (isWhiteSpace x) eqn:E.
    + exact IH.
    + exists (String x a). split; [reflexivity | exact E].
Qed.

Lemma trimStart_all_white (s : string) :
  allChars isWhiteSpace s = true -> trimStart s = EmptyString.
Proof.
  induction s as [|c s IH]; simpl; [reflexivity|].
  intros H. apply andb_prop in H. destruct H as [Hc Hs]. rewrite Hc. exact (IH Hs).
Qed.

Lemma trim_all_white (s : string) :
  allChars isWhiteSpace s = true -> trim s = EmptyString.
Proof. intros H. unfold trim, trimEnd. rewrite (trimStart_all_white _ H). reflexivity. Qed.

Lemma allChars_append (p : ascii -> bool) (a b : string) :
  allChars p (a ++ b) = allChars p a && allChars p b.
Proof.
  induction a as [|c a IH]; [reflexivity|].
  rewrite append_cons. cbn [allChars]. rewrite IH, andb_assoc. reflexivity.
Qed.

(** A trimmed string starts and ends clean, so trimming it again changes
    nothing. *)
Lemma trimEnd_keeps_start (s : string) :
  startsClean s -> startsClean (trimEnd s).
Proof.
  destruct s as [|c s]; [intros _; exact I|]. intros Hc. simpl in Hc.
  unfold trimEnd. cbn [Text.rev].
  destruct (trimStart_keeps (Text.rev s) c EmptyString Hc) as (a' & Ha & _).
  rewrite Ha, rev_append. cbn [Text.rev].
  change (EmptyString ++ String c EmptyString) with (String c EmptyString).
  rewrite append_cons. exact Hc.
Qed.

Lemma trimEnd_idempotent (s : string) : trimEnd (trimEnd s) = trimEnd s.
Proof.
  unfold trimEnd. rewrite rev_involutive.
  rewrite (trimStart_of_clean _ (trimStart_clean _)). reflexivity.
Qed.

Lemma trim_idempotent (s : string) : trim (trim s) = trim s.
Proof.
  unfold trim.
  rewrite (trimStart_of_clean (trimEnd (trimStart s))).
  - apply trimEnd_idempotent.
  - apply trimEnd_keeps_start, trimStart_clean.
Qed.

End StringFacts.

(** ** Segmentation, continued *)

Section MoreSegmentationFacts.

Lemma terminator_not_white (c : ascii) :
  isTerminator c = true -> isWhiteSpace c = false.
Proof.
  unfold isTerminator. intros H.
  apply orb_true_iff in H. destruct H as [H|H];
    [apply orb_true_iff in H; destruct H as [H|H]|];
    apply Ascii.eqb_eq in H; subst c; reflexivity.
Qed.

Lemma trimStart_before_marks (body marks : string) :
  Text.truthy marks = true -> allChars isTerminator marks = true ->
  trimStart (body ++ marks) = trimStart body ++ marks.
Proof.
  intros Ht Hm. induction body as [|x body IH].
  - change (EmptyString ++ marks) with marks. cbn [trimStart].
    change (EmptyString ++ marks) with marks.
    destruct marks as [|c marks]; [discriminate|].
    simpl in Hm. apply andb_prop in Hm. destruct Hm as [Hc _].
    cbn [trimStart]. rewrite (terminator_not_white c Hc). reflexivity.
  - rewrite append_cons. cbn [trimStart]. destruct (isWhiteSpace x); [exact IH|].
    reflexivity.
Qed.

Lemma rev_marks_clean (marks rest : string) :
  Text.truthy marks = true -> allChars isTerminator marks = true ->
  startsClean (Text.rev marks ++ rest).
Proof.
  revert rest. induction marks as [|c marks IH]; [discriminate|].
  intros rest _ Hm. simpl in Hm. apply andb_prop in Hm. destruct Hm as [Hc Hm].
  cbn [Text.rev]. rewrite <- append_assoc.
  destruct marks as [|c' marks'].
  - cbn [Text.rev]. change (EmptyString ++ String c EmptyString ++ rest)
      with (String c rest).
    exact (terminator_not_white c Hc).
  - apply IH; [reflexivity | exact Hm].
Qed.

Lemma trimEnd_after_marks (x marks : string) :
  Text.truthy marks = true -> allChars isTerminator marks = true ->
  trimEnd (x ++ marks) = x ++ marks.
Proof.
  intros Ht Hm. unfold trimEnd. rewrite rev_append.
  rewrite (trimStart_of_clean _ (rev_marks_clean marks (Text.rev x) Ht Hm)).
  rewrite <- rev_append. apply rev_involutive.
Qed.

Lemma trim_match (body marks : string) :
  Text.truthy marks = true -> allChars isTerminator marks = true ->
  trim (body ++ marks) = trimStart body ++ marks.
Proof.
  intros Ht Hm. unfold trim. rewrite (trimStart_before_marks _ _ Ht Hm).
  apply trimEnd_after_marks; assumption.
Qed.

(** Every match of the scan is a run of non-terminators followed by a run
    of terminators. *)
Lemma matchAllFrom_shape (n : nat) : forall s,
  Forall (fun m => exists body marks,
              m = body ++ marks /\
              Text.truthy body = true /\ allChars notTerminator body = true /\
              Text.truthy marks = true /\ allChars isTerminator marks = true)
         (matchAllFrom n s).
Proof.
  induction n as [|n IH]; intros s; [constructor|].
  destruct s as [|c s]; [constructor|].
  cbn [matchAllFrom]. destruct (matchAt (String c s)) as [[m rest]|] eqn:E.
  - constructor; [|apply IH].
    destruct (matchAt_sound _ _ _ E) as (body & marks & Hm & _ & Hb & Hbody & Ht & Hmarks & _).
    exists body, marks. repeat split; assumption.
  - apply IH.
Qed.

(** The sentences come text node by text node. *)
Lemma segment_concat (tempDiv : node) :
  segment tempDiv = List.concat (List.map textSentences (descendantTexts tempDiv)).
Proof.
  unfold segment.
  induction tempDiv as [t|cs IH|] using node_rect_children; try reflexivity.
  simpl. induction IH as [|c cs Hc _ IHcs]; [reflexivity|].
  assert (Hloop : forall acc,
             extractSentencesFromElement (ElementNode cs) acc
             = (acc ++ extractSentencesFromElement (ElementNode cs) [])%list)
    by (intros acc; apply extract_appends).
  simpl in Hloop.
  destruct c as [t|cs'|].
  - rewrite Hloop. cbn [List.app List.map List.concat].
    rewrite <- IHcs. reflexivity.
  - rewrite Hloop. rewrite List.map_app, List.concat_app.
    rewrite <- IHcs, <- Hc. reflexivity.
  - exact IHcs.
Qed.

End MoreSegmentationFacts.

Section MoreSegmentationFacts2.

Lemma descendantTexts_app (a b : list node) :
  descendantTexts (ElementNode (a ++ b))
  = (descendantTexts (ElementNode a) ++ descendantTexts (ElementNode b))%list.
Proof.
  induction a as [|c a IH]; [reflexivity|].
  simpl in *. rewrite IH, List.app_assoc. reflexivity.
Qed.

Lemma span_all (p : ascii -> bool) (s : string) :
  allChars p s = true -> span p s = (s, EmptyString).
Proof.
  induction s as [|c s IH]; simpl; [reflexivity|].
  intros H. apply andb_prop in H. destruct H as [Hc Hs].
  rewrite Hc, (IH Hs). reflexivity.
Qed.

Lemma span_none (p : ascii -> bool) (s : string) :
  allChars (fun c => negb (p c)) s = true -> span p s = (EmptyString, s).
Proof.
  destruct s as [|c s]; simpl; [reflexivity|].
  intros H. apply andb_prop in H. destruct H as [Hc _].
  apply negb_true_iff in Hc. rewrite Hc. reflexivity.
Qed.

(** Text without a terminator has no match, wherever the scan starts. *)
Lemma matchAllFrom_unpunctuated (n : nat) : forall s,
  allChars notTerminator s = true -> matchAllFrom n s = [].
Proof.
  induction n as [|n IH]; intros s H; [reflexivity|].
  destruct s as [|c s]; [reflexivity|].
  cbn [matchAllFrom]. unfold matchAt. rewrite (span_all _ _ H).
  cbn. simpl in H. apply andb_prop in H. destruct H as [_ Hs]. exact (IH s Hs).
Qed.

End MoreSegmentationFacts2.

(** X1.  The sentences of a document are those of its text nodes, taken
    one by one in document order at any depth: no sentence spans two text
    nodes, the sentences of two runs of children are those of the first
    followed by those of the second, and wrapping the nodes in a further
    element changes nothing. *)
Theorem sentences_by_text_node (tempDiv : node) (a b : list node) :
  segment tempDiv = List.concat (List.map textSentences (descendantTexts tempDiv)) /\
  segment (ElementNode (a ++ b))
  = (segment (ElementNode a) ++ segment (ElementNode b))%list /\
  segment (ElementNode [ElementNode a]) = segment (ElementNode a).
Proof.
  repeat apply conj.
  - apply segment_concat.
  - rewrite !segment_concat, descendantTexts_app, List.map_app, List.concat_app.
    reflexivity.
  - rewrite !segment_concat. simpl. rewrite List.app_nil_r. reflexivity.
Qed.

(** X2.  Every sentence of a document is non-empty and trimmed: trimming it
    again gives the same string. *)
Theorem sentences_are_trimmed (tempDiv : node) :
  Forall (fun s => s <> EmptyString /\ trim s = s) (segment tempDiv).
Proof.
  rewrite segment_concat. apply List.Forall_concat.
  apply List.Forall_forall. intros l Hl.
  apply List.in_map_iff in Hl. destruct Hl as (t & <- & _).
  unfold textSentences. destruct (Text.truthy (trim t)); [|constructor].
  apply List.Forall_forall. intros s Hs. apply List.filter_In in Hs.
  destruct Hs as [Hs Hne]. apply List.in_map_iff in Hs.
  destruct Hs as (m & <- & _). split.
  - intros E. rewrite E in Hne. discriminate.
  - apply trim_idempotent.
Qed.

(** X3.  A document whose text nodes hold nothing but white space has no
    sentence. *)
Theorem white_space_gives_no_sentence (tempDiv : node) :
  Forall (fun t => allChars isWhiteSpace t = true) (descendantTexts tempDiv) ->
  segment tempDiv = [].
Proof.
  intros H. rewrite segment_concat.
  induction H as [|t ts Ht _ IH]; [reflexivity|].
  simpl. rewrite IH, List.app_nil_r.
  unfold textSentences. rewrite (trim_all_white _ Ht). reflexivity.
Qed.

Lemma white_space_gives_no_sentence_witness :
  segment (ElementNode [TextNode "  "; ElementNode [TextNode LF]; OtherNode]) = [].
Proof.
  apply white_space_gives_no_sentence. repeat constructor.
Defined.

(** X4.  Every sentence taken from a text node is either a stretch without
    terminal punctuation and without white space in front, closed by one
    run of terminators (so [?!] or [...] never split a sentence and never
    stand inside one), or the whole trimmed text of a node in which the
    pattern found nothing. *)
Theorem sentence_shape (t : string) :
  Forall (fun s => endsSentence s \/ (s = trim t /\ matchAll (trim t) = []))
         (textSentences t).
Proof.
  unfold textSentences. destruct (Text.truthy (trim t)); [|constructor].
  apply List.Forall_forall. intros s Hs. apply List.filter_In in Hs.
  destruct Hs as [Hs _]. apply List.in_map_iff in Hs. destruct Hs as (m & <- & Hm).
  unfold matchSentences in Hm. destruct (matchAll (trim t)) as [|m0 ms] eqn:E.
  - right. destruct Hm as [<-|[]]. split; [apply trim_idempotent | reflexivity].
  - left. pose proof (matchAllFrom_shape (String.length (trim t)) (trim t)) as Hall.
    fold (matchAll (trim t)) in Hall. rewrite E in Hall.
    rewrite List.Forall_forall in Hall.
    destruct (Hall m Hm) as (body & marks & -> & _ & Hbody & Ht & Hmarks).
    exists body, marks. split; [apply trim_match; assumption|].
    repeat split; assumption.
Qed.

(** X5.  Text that follows the last terminal punctuation of a text, and
    terminal punctuation in front of its first word, are in no match: of
    marks, words, marks and more words only the middle "words, marks" is
    kept. *)
Theorem unpunctuated_tail_dropped (lead body marks tail : string) :
  allChars isTerminator lead = true ->
  Text.truthy body = true -> allChars notTerminator body = true ->
  Text.truthy marks = true -> allChars isTerminator marks = true ->
  allChars notTerminator tail = true ->
  matchSentences (lead ++ body ++ marks ++ tail) = [body ++ marks].
Proof.
  intros Hlead Hb Hbody Hm Hmarks Htail.
  assert (Hfrom : forall s, allChars isTerminator s = true ->
             forall n, (String.length (s ++ body ++ marks ++ tail) <= n)%nat ->
             matchAllFrom n (s ++ body ++ marks ++ tail) = [body ++ marks]).
  { induction s as [|c s IH]; intros Hs n Hn.
    - change (EmptyString ++ body ++ marks ++ tail) with (body ++ marks ++ tail) in *.
      destruct (body ++ marks ++ tail) as [|c rest] eqn:E.
      { destruct body; discriminate. }
      destruct n as [|n]; [simpl in Hn; lia|].
      cbn [matchAllFrom].
      rewrite <- E, (matchAt_complete body marks tail Hb Hbody Hm Hmarks).
      rewrite (span_none isTerminator tail Htail). cbn [fst snd].
      rewrite append_empty_r, (matchAllFrom_unpunctuated _ _ Htail).
      reflexivity.
    - rewrite append_cons in *. destruct n as [|n]; [simpl in Hn; lia|].
      cbn [matchAllFrom].
      simpl in Hs. apply andb_prop in Hs. destruct Hs as [Hc Hs].
      assert (matchAt (String c (s ++ body ++ marks ++ tail)) = None) as ->.
      { unfold matchAt. cbn [span]. unfold notTerminator at 1. rewrite Hc.
        reflexivity. }
      apply IH; [exact Hs | simpl in Hn; lia]. }
  unfold matchSentences, matchAll. rewrite (Hfrom lead Hlead _ (le_n _)).
  reflexivity.
Qed.

Lemma unpunctuated_tail_dropped_witness :
  matchSentences "...Hello there! and more" = ["Hello there!"].
Proof.
  apply (unpunctuated_tail_dropped "..." "Hello there" "!" " and more");
    reflexivity.
Defined.

(** ** Barrier analysis, continued *)

Section MoreAnalysisFacts.

Lemma splitFrom_space_length (s : string) : forall cur,
  List.length (splitFrom " " 0 cur s) = S (countChar " " s).
Proof.
  induction s as [|c s IH]; intros cur; [reflexivity|].
  cbn [splitFrom String.prefix countChar].
  destruct (ascii_dec " " c) as [<-|Hne].
  - replace (String.prefix "" s) with true by (destruct s; reflexivity).
    cbn. f_equal. apply IH.
  - replace (Ascii.eqb c " ") with false.
    + cbn. apply IH.
    + symmetry. apply Ascii.eqb_neq. congruence.
Qed.

Lemma totalWords_from (l : list string) : forall start,
  fold_left (fun sum s => (sum + Z.of_nat (List.length (split " " s)))%Z) l start
  = (start + Z.of_nat (list_sum (List.map (fun s => S (countChar " " s)) l)))%Z.
Proof.
  induction l as [|s l IH]; intros start; simpl.
  - lia.
  - rewrite IH. unfold split. rewrite splitFrom_space_length. lia.
Qed.

(** The comparison of a quotient of two lengths with a bound, in integers:
    [a / b > k] exactly when [k * b < a], also when [b] is 0 (the quotient
    is then infinite, or NaN for [0/0]). *)
Lemma gt_div (a b k : Z) :
  (0 <= a)%Z -> (0 <= b)%Z ->
  Number.gt (Number.div a b) k = (k * b <? a)%Z.
Proof.
  intros Ha Hb. unfold Number.div.
  destruct (Z.eqb_spec b 0) as [->|Hb0].
  - rewrite Z.mul_0_r. destruct (Z.eqb_spec a 0) as [->|Ha0]; [reflexivity|].
    destruct (Z.ltb_spec 0 a); [reflexivity | lia].
  - assert (Hpos : (0 < inject_Z b)%Q).
    { change (inject_Z 0 < inject_Z b)%Q. rewrite <- Zlt_Qlt. lia. }
    cbn [Number.gt].
    destruct (Z.ltb_spec (k * b) a) as [Hlt|Hge].
    + apply negb_true_iff. destruct (Qle_bool (inject_Z a / inject_Z b) (inject_Z k)) eqn:E;
        [|reflexivity].
      apply Qle_bool_iff in E.
      apply (Qmult_le_compat_r _ _ (inject_Z b)) in E; [|apply Qlt_le_weak, Hpos].
      rewrite Qmult_comm, Qmult_div_r in E.
      * rewrite <- inject_Z_mult, <- Zle_Qle in E. lia.
      * intros H0. rewrite H0 in Hpos. apply (Qlt_irrefl 0), Hpos.
    + apply negb_false_iff. apply Qle_bool_iff.
      apply Qle_shift_div_r; [exact Hpos|].
      rewrite <- inject_Z_mult, <- Zle_Qle. lia.
Qed.

Lemma totalWords_nonneg (l : list string) : (0 <= totalWords l)%Z.
Proof. unfold totalWords. rewrite totalWords_from. lia. Qed.

End MoreAnalysisFacts.

(** X6.  [split(' ')] counts one word more than the sentence has spaces:
    doubled spaces count as extra words, and the total of a document is
    the number of its sentences plus the number of their spaces. *)
Theorem words_are_spaces_plus_one (s : string) (sentences : list string) :
  List.length (split " " s) = S (countChar " " s) /\
  totalWords sentences
  = (sentenceCount sentences
     + Z.of_nat (list_sum (List.map (countChar " ") sentences)))%Z.
Proof.
  split; [apply splitFrom_space_length|].
  unfold totalWords, sentenceCount. rewrite totalWords_from.
  induction sentences as [|x l IH]; simpl in *; lia.
Qed.

(** X7.  Sentence Complexity is reported exactly when the words of the
    document outnumber twenty times its sentences; a document without
    sentences never gets it. *)
Theorem complexity_criterion (text : string) (sentences : list string) :
  hasType "Sentence Complexity" (issues (analyze text sentences))
  = (20 * sentenceCount sentences <? totalWords sentences)%Z.
Proof.
  unfold analyze, displayAccessibilityAnalysis. cbn [issues].
  rewrite detectIssues_shape.
  rewrite <- (gt_div (totalWords sentences) (sentenceCount sentences) 20);
    [|apply totalWords_nonneg | unfold sentenceCount; lia].
  fold (avgSentenceLength sentences).
  destruct (Number.gt (avgSentenceLength sentences) 20);
    destruct (negb (hasHeadings text) && (10 <? List.length sentences)%nat);
    destruct (Number.gt (avgParagraphLength text) 500); reflexivity.
Qed.

(** X8.  Text Density is reported exactly when the text has more than 500
    characters per paragraph, counted as: the length of the text exceeds
    500 times the number of its non-blank paragraphs.  A non-empty text
    of white space only has no paragraph and gets the issue; the empty
    text does not. *)
Theorem density_criterion (text : string) (sentences : list string) :
  hasType "Text Density" (issues (analyze text sentences))
  = (500 * paragraphCount text <? Z.of_nat (String.length text))%Z.
Proof.
  unfold analyze, displayAccessibilityAnalysis. cbn [issues].
  rewrite detectIssues_shape.
  rewrite <- (gt_div (Z.of_nat (String.length text)) (paragraphCount text) 500);
    [|lia | unfold paragraphCount; lia].
  fold (avgParagraphLength text).
  destruct (Number.gt (avgSentenceLength sentences) 20);
    destruct (negb (hasHeadings text) && (10 <? List.length sentences)%nat);
    destruct (Number.gt (avgParagraphLength text) 500); reflexivity.
Qed.

(** X9.  An analysis finds at most three issues, of different types; its
    risk level is decided by their number alone (Low for none or one,
    Medium for two, High for three) and its score lies between 69 and
    100. *)
Theorem risk_by_issue_count (text : string) (sentences : list string) :
  let r := analyze text sentences in
  let n := List.length (issues r) in
  (n <= 3)%nat /\
  List.NoDup (List.map type (issues r)) /\
  riskLevel r = (if (n <=? 1)%nat then "Low Risk"
                 else if (n =? 2)%nat then "Medium Risk" else "High Risk") /\
  (69 <= score r <= 100)%Z.
Proof.
  unfold analyze, displayAccessibilityAnalysis. cbn [issues score riskLevel].
  rewrite detectIssues_shape.
  destruct (Number.gt (avgSentenceLength sentences) 20);
    destruct (negb (hasHeadings text) && (10 <? List.length sentences)%nat);
    destruct (Number.gt (avgParagraphLength text) 500);
    cbn; repeat apply conj; try lia; try reflexivity;
    repeat (apply List.NoDup_cons; [cbn; intuition discriminate|]);
    apply List.NoDup_nil.
Qed.

(** X10.  The report carries one recommendation, chosen by priority:
    complexity before structure before density, and none when there is no
    issue.  The sentence about a well-structured document is never shown:
    whenever there is an issue, one of the three types is present. *)
Theorem recommendation_priority (text : string) (sentences : list string) :
  let r := analyze text sentences in
  recommendation r
  = (if hasType "Sentence Complexity" (issues r)
     then Some "Vision Mode with audio and sentence highlighting for complex text. "
     else if hasType "Document Structure" (issues r)
     then Some "Use sentence-by-sentence navigation for better structure. "
     else if hasType "Text Density" (issues r)
     then Some "Audio mode with chunked reading for dense content. "
     else None) /\
  (recommendation r = None <-> issues r = []) /\
  recommendation r
  <> Some "Document is well-structured for all accessibility modes. ".
Proof.
  unfold analyze, displayAccessibilityAnalysis. cbn [issues recommendation].
  rewrite detectIssues_shape.
  destruct (Number.gt (avgSentenceLength sentences) 20);
    destruct (negb (hasHeadings text) && (10 <? List.length sentences)%nat);
    destruct (Number.gt (avgParagraphLength text) 500);
    cbn; repeat apply conj; try reflexivity; try discriminate;
    split; discriminate || reflexivity.
Qed.

(** X11.  In the score loop every issue costs 15, 8 or 3 points whatever
    came before it, so a list of [n] issues scores between [100 - 15 n]
    and [100 - 3 n]; nothing holds the score at 0. *)
Theorem score_of_any_issues (l : list issue) (i : issue) :
  computeScore (l ++ [i])%list = (computeScore l - penalty (severity i))%Z /\
  (3 <= penalty (severity i) <= 15)%Z /\
  (100 - 15 * Z.of_nat (List.length l) <= computeScore l
   <= 100 - 3 * Z.of_nat (List.length l))%Z /\
  (computeScore (l ++ List.repeat (complexityIssue Number.NaN) 7)%list < 0)%Z.
Proof.
  assert (Hp : forall j, (3 <= penalty (severity j) <= 15)%Z).
  { intros j. unfold penalty.
    destruct (String.eqb (severity j) "high");
      [|destruct (String.eqb (severity j) "medium")]; lia. }
  assert (Hsum : forall a b,
             fold_right (fun j sum => (penalty (severity j) + sum)%Z) 0%Z (a ++ b)%list
             = (fold_right (fun j sum => (penalty (severity j) + sum)%Z) 0%Z a
                + fold_right (fun j sum => (penalty (severity j) + sum)%Z) 0%Z b)%Z).
  { intros a b. induction a as [|x a IH]; simpl; [lia | rewrite IH; lia]. }
  assert (Hb : (3 * Z.of_nat (List.length l)
                <= fold_right (fun j sum => (penalty (severity j) + sum)%Z) 0%Z l
                <= 15 * Z.of_nat (List.length l))%Z).
  { induction l as [|x l IH]; [simpl; lia|].
    cbn [fold_right List.length]. specialize (Hp x). lia. }
  rewrite !computeScore_penalties, !Hsum. cbn [fold_right List.repeat].
  repeat apply conj; try apply Hp; try lia.
  change (penalty (severity (complexityIssue Number.NaN))) with 15%Z. lia.
Qed.

(** ** Voices, continued *)

Section MoreVoiceFacts.

Lemma find_some_exists {A} (p : A -> bool) (l : list A) :
  existsb p l = true -> exists v, List.find p l = Some v.
Proof.
  induction l as [|x l IH]; simpl; [discriminate|].
  destruct (p x); [eauto|]. exact IH.
Qed.

End MoreVoiceFacts.

(** X12.  The voice given to an utterance is one of the engine's voices.
    When some voice has a keyword in its name or is a local English one,
    the chosen voice is of that kind; otherwise, when some voice is
    English, the chosen voice is English; the first voice of the list is
    only chosen as such when no voice is English or keyword-named. *)
Theorem chosen_voice_is_a_candidate (voices : list SpeechSynthesisVoice)
        (v : SpeechSynthesisVoice) :
  preferredVoice voices = Some v ->
  In v voices /\
  (existsb preferred voices = true -> preferred v = true) /\
  (existsb english voices = true -> preferred v = true \/ english v = true) /\
  (existsb preferred voices = false -> existsb english voices = false ->
   voices !! 0%nat = Some v).
Proof.
  unfold preferredVoice. intros H. repeat apply conj.
  - destruct (List.find preferred voices) eqn:E1.
    + inversion H; subst. apply List.find_some in E1. tauto.
    + destruct (List.find english voices) eqn:E2.
      * inversion H; subst. apply List.find_some in E2. tauto.
      * destruct voices; [discriminate|]. inversion H; subst. left. reflexivity.
  - intros Hex. destruct (find_some_exists _ _ Hex) as (w & Hw).
    rewrite Hw in H. inversion H; subst. apply List.find_some in Hw. tauto.
  - intros Hex. destruct (List.find preferred voices) eqn:E1.
    + inversion H; subst. apply List.find_some in E1. tauto.
    + destruct (find_some_exists _ _ Hex) as (w & Hw). rewrite Hw in H.
      inversion H; subst. apply List.find_some in Hw. tauto.
  - intros Hp He.
    destruct (List.find preferred voices) eqn:E1.
    { apply List.find_some in E1. destruct E1 as [Hin Hs].
      assert (existsb preferred voices = true)
        by (apply List.existsb_exists; eauto). congruence. }
    destruct (List.find english voices) eqn:E2.
    { apply List.find_some in E2. destruct E2 as [Hin Hs].
      assert (existsb english voices = true)
        by (apply List.existsb_exists; eauto). congruence. }
    exact H.
Qed.

Lemma chosen_voice_is_a_candidate_witness :
  In Samples.david [Samples.aria; Samples.david] \/
  In Samples.aria [Samples.aria; Samples.david].
Proof.
  right.
  apply (chosen_voice_is_a_candidate [Samples.aria; Samples.david] Samples.aria).
  reflexivity.
Defined.

(** ** Playback, continued *)

Section MorePlaybackFacts.

Variable parseFloat : string -> Number.number.

Lemma sentenceAt_lookup (r : reader) (i : Z) :
  (0 <= i < sentenceTotal r)%Z ->
  sentences r !! Z.to_nat i = Some (sentenceAt r i).
Proof.
  unfold sentenceAt, sentenceTotal. intros [H0 H1].
  destruct (Z.ltb_spec i 0); [lia|].
  destruct (sentences r !! Z.to_nat i) eqn:E; [reflexivity|].
  apply lookup_ge_None in E. lia.
Qed.

Lemma sentenceAt_lookup_in (l : list string) (r : reader) (i : Z) :
  sentences r = l -> (0 <= i < Z.of_nat (List.length l))%Z ->
  l !! Z.to_nat i = Some (sentenceAt r i).
Proof. intros <- H. apply sentenceAt_lookup, H. Qed.

Lemma construct_quiet storage slider engineVoices :
  quiet (construct storage slider engineVoices).
Proof.
  destruct (construct_fields storage slider engineVoices)
    as (_ & _ & Hp & _ & Hq & _).
  unfold quiet. rewrite Hq. split; congruence.
Qed.

Lemma handle_quiet r e r' :
  quiet r -> handle parseFloat r e = Some r' -> quiet r'.
Proof.
  unfold quiet. intros [Hp Hq] H.
  destruct r; destruct e; cbn in *;
    repeat match type of H with
           | context [match ?x with _ => _ end] => destruct x eqn:?; cbn in H
           end;
    try discriminate; inversion H; subst; clear H;
    unfold togglePlayback, startReading, readCurrentSentence, onend, onerror,
      updateSpeed, arrowRight, arrowLeft, handleFileUpload, processDocument,
      resetPlayback, toggleAccessibilityMode, showError, pauseReading,
      sentenceTotal;
    try rewrite analyzeAccessibility_closed;
    branches; split; intros; try discriminate; try congruence; try reflexivity;
    try (apply Hp; reflexivity); try (apply Hq; assumption);
    try (apply Hp; assumption); try (apply Hq; discriminate);
    try (exfalso; specialize (Hp eq_refl); discriminate);
    try (exfalso; apply (Hq ltac:(discriminate)); reflexivity);
    try (match goal with
         | |- ?q = [] =>
             destruct q; [reflexivity
                         | exfalso; eapply Hq; [discriminate | reflexivity]]
         end).
Qed.

Lemma spanIndex_nil (index : Z) : spanIndex index [] = None.
Proof.
  unfold spanIndex.
  destruct (Z.ltb_spec index (Z.of_nat (List.length (@nil string)))) as [H|H].
  - cbn in H. destruct (Z.leb_spec 0 index); [lia | reflexivity].
  - rewrite andb_false_r. reflexivity.
Qed.

(** What one turn of the event loop can do to the queue: empty it, leave
    it (or take its head away) without touching the sentences, the spans
    and the highlight, append an utterance for the sentence it highlights,
    or leave it while the page loses its spans. *)
Lemma handle_queue r e r' :
  indexSafe r -> quiet r -> handle parseFloat r e = Some r' ->
  queue r' = [] \/
  (sentences r' = sentences r /\ highlighted r' = highlighted r /\
   spans r' = spans r /\
   (queue r' = queue r \/ exists u, queue r = u :: queue r')) \/
  (sentences r' = sentences r /\
   exists u, queue r' = (queue r ++ [u])%list /\
             highlighted r' = spanIndex (sentenceIndex u) (spans r') /\
             speaksSentence r u) \/
  (sentences r' = sentences r /\ queue r' = queue r /\
   spans r' = [] /\ highlighted r' = None).
Proof.
  unfold indexSafe, quiet, speaksSentence. intros [H0 Hi] [Hp Hq] H.
  destruct r; destruct e; cbn in *;
    repeat match type of H with
           | context [match ?x with _ => _ end] => destruct x eqn:?; cbn in H
           end;
    try discriminate; inversion H; subst; clear H;
    unfold togglePlayback, startReading, readCurrentSentence, onend, onerror,
      updateSpeed, arrowRight, arrowLeft, handleFileUpload, processDocument,
      resetPlayback, toggleAccessibilityMode, showError, pauseReading,
      sentenceTotal;
    try rewrite analyzeAccessibility_closed;
    branches;
    first
      [ left; reflexivity
      | left; destruct queue0;
        [reflexivity | exfalso; eapply Hq; [discriminate | reflexivity]]
      | right; left; repeat split; first [left; reflexivity | right; eexists; reflexivity]
      | solve [right; right; right; repeat split]
      | right; right; left; split; [reflexivity|]; eexists;
        split; [reflexivity|]; split; [reflexivity|];
        split; [cbn; lia|];
        cbn -[sentenceAt];
        eapply sentenceAt_lookup_in; [reflexivity | cbn; lia] ].
Qed.

Lemma handle_onTheDocument r e r' :
  indexSafe r -> quiet r -> onTheDocument r ->
  handle parseFloat r e = Some r' -> onTheDocument r'.
Proof.
  intros Hs Hq [Hf Hl] H. unfold onTheDocument.
  destruct (handle_queue r e r' Hs Hq H)
    as [E | [(Es & Eh & Ep & [E | (u & E)])
            | [(Es & u & E & Eh & Hu) | (Es & E & Ep & Eh)]]].
  - rewrite E. split; [constructor | exact I].
  - rewrite E, Eh, Ep. split; [|exact Hl].
    eapply Forall_impl; [exact Hf|]. unfold speaksSentence. rewrite Es. tauto.
  - rewrite E in Hf, Hl. split.
    + apply Forall_inv_tail in Hf.
      eapply Forall_impl; [exact Hf|]. unfold speaksSentence. rewrite Es. tauto.
    + rewrite Eh, Ep. destruct (queue r') as [|v q]; [exact I|].
      rewrite last_cons_cons in Hl. exact Hl.
  - rewrite E, last_snoc. split; [|exact Eh].
    apply Forall_app_2.
    + eapply Forall_impl; [exact Hf|]. unfold speaksSentence. rewrite Es. tauto.
    + constructor; [|constructor]. unfold speaksSentence in *. rewrite Es. exact Hu.
  - rewrite E, Eh, Ep. split.
    + eapply Forall_impl; [exact Hf|]. unfold speaksSentence. rewrite Es. tauto.
    + destruct (last (queue r)); [symmetry; apply spanIndex_nil | exact I].
Qed.

(** The three invariants together, along a session. *)
Lemma run_engine es : forall r r',
  indexSafe r /\ quiet r /\ onTheDocument r ->
  run parseFloat es r = Some r' ->
  indexSafe r' /\ quiet r' /\ onTheDocument r'.
Proof.
  induction es as [|e es IH]; intros r r' Hr H; simpl in H.
  - inversion H; subst; exact Hr.
  - destruct (handle parseFloat r e) as [r1|] eqn:E; [|discriminate].
    eapply IH; [|exact H]. destruct Hr as (Hs & Hq & Hd).
    repeat split.
    + eapply handle_indexSafe; eauto.
    + eapply handle_indexSafe; eauto.
    + eapply handle_quiet; eauto.
    + eapply handle_quiet; eauto.
    + eapply handle_onTheDocument; eauto.
    + eapply handle_onTheDocument; eauto.
Qed.

Lemma reachable_engine r :
  reachable parseFloat r -> indexSafe r /\ quiet r /\ onTheDocument r.
Proof.
  intros (storage & slider & vs & es & H).
  eapply run_engine; [|exact H].
  split; [apply indexBounded_safe, construct_indexBounded|].
  split; [apply construct_quiet|].
  destruct (construct_fields storage slider vs) as (_ & _ & _ & _ & Hq & _).
  unfold onTheDocument. rewrite Hq. split; [constructor | exact I].
Qed.

Lemma run_quiet es : forall r r',
  quiet r -> run parseFloat es r = Some r' -> quiet r'.
Proof.
  induction es as [|e es IH]; intros r r' Hr H; simpl in H.
  - inversion H; subst; exact Hr.
  - destruct (handle parseFloat r e) as [r1|] eqn:E; [|discriminate].
    eapply IH; [|exact H]. eapply handle_quiet; eauto.
Qed.

Lemma reachable_quiet r : reachable parseFloat r -> quiet r.
Proof.
  intros (storage & slider & vs & es & H).
  eapply run_quiet; [|exact H]. apply construct_quiet.
Qed.

Lemma reachable_indexSafe r : reachable parseFloat r -> indexSafe r.
Proof.
  intros (storage & slider & vs & es & H).
  eapply run_indexSafe; [|exact H].
  apply indexBounded_safe, construct_indexBounded.
Qed.

End MorePlaybackFacts.

(** X13.  While the reader is not playing, nothing waits in the speech
    engine: pausing, finishing, an error and loading a document all leave
    the queue empty, at every point of a session and whatever the engine
    reports about cancelled utterances. *)
Theorem paused_engine_is_idle
        (parseFloat : string -> Number.number) (r : reader) :
  reachable parseFloat r -> isPlaying r = false -> queue r = [].
Proof.
  intros Hr. destruct (reachable_quiet parseFloat r Hr) as [Hp _]. exact Hp.
Qed.

Lemma paused_engine_is_idle_witness :
  queue (Samples.session Samples.pausedOnFirst) = [].
Proof.
  apply (paused_engine_is_idle Samples.parseOne).
  - exists ∅, "1", [], Samples.pausedOnFirst. vm_compute. reflexivity.
  - vm_compute. reflexivity.
Defined.

(** X14.  At every point of a session each utterance waiting in the engine
    speaks a sentence of the document now loaded, the one at the index it
    was made for, and that index is inside the document.  The highlight
    is on the span whose [data-index] is the index of the utterance queued
    last, and nowhere when the page has no such span, as after a failed
    upload, which takes the spans away and leaves the queue. *)
Theorem queue_speaks_the_document
        (parseFloat : string -> Number.number) (r : reader) :
  reachable parseFloat r ->
  Forall (fun u => (0 <= sentenceIndex u < sentenceTotal r)%Z /\
                   sentences r !! Z.to_nat (sentenceIndex u) = Some (text u))
         (queue r) /\
  match last (queue r) with
  | Some u => highlighted r = spanIndex (sentenceIndex u) (spans r)
  | None => True
  end.
Proof.
  intros Hr. destruct (reachable_engine parseFloat r Hr) as (_ & _ & Hf & Hl).
  split; [|exact Hl].
  eapply Forall_impl; [exact Hf|]. intros u [H0 Hu].
  split; [|exact Hu]. split; [exact H0|].
  apply lookup_lt_Some in Hu. unfold sentenceTotal. lia.
Qed.

Lemma queue_speaks_the_document_witness :
  let r := Samples.session Samples.playingFourth in
  List.map text (queue r) = ["D."] /\ highlighted r = Some 3%Z.
Proof.
  intros r.
  destruct (queue_speaks_the_document Samples.parseOne r) as [_ Hl].
  - exists ∅, "1", [], Samples.playingFourth. vm_compute. reflexivity.
  - split; [vm_compute; reflexivity|]. exact Hl.
Defined.

(** X15.  Pause followed by play resumes the same sentence from its start:
    the index is unchanged, what was being spoken is cancelled, and the
    one utterance then waiting is a new one for the sentence at the index;
    the span with that index is highlighted when the page has one, and
    nothing is highlighted otherwise. *)
Theorem pause_then_play_resumes
        (parseFloat : string -> Number.number) (r : reader) :
  isPlaying r = true -> utterance r <> None ->
  (0 <= currentSentence r < sentenceTotal r)%Z ->
  let r' := togglePlayback parseFloat (togglePlayback parseFloat r) in
  isPlaying r' = true /\
  currentSentence r' = currentSentence r /\
  queue r' = [newUtterance parseFloat r] /\
  text (newUtterance parseFloat r) = sentenceAt r (currentSentence r) /\
  cancelled r' = (cancelled r ++ queue r)%list /\
  highlighted r' = spanIndex (currentSentence r) (spans r).
Proof.
  intros Hp Hu Hi r'. subst r'.
  unfold togglePlayback, startReading, readCurrentSentence, pauseReading,
    sentenceTotal in *.
  destruct r; cbn in *. subst.
  destruct utterance0; [|congruence].
  branches; try lia. repeat split.
Qed.

Lemma pause_then_play_resumes_witness :
  let r := Samples.session Samples.playingFourth in
  let r' := togglePlayback Samples.parseOne (togglePlayback Samples.parseOne r) in
  isPlaying r' = true /\ currentSentence r' = currentSentence r.
Proof.
  intros r r'.
  destruct (pause_then_play_resumes Samples.parseOne r) as (H1 & H2 & _).
  - vm_compute. reflexivity.
  - vm_compute. discriminate.
  - vm_compute. split; [discriminate | reflexivity].
  - split; [exact H1 | exact H2].
Defined.



Section UploadFacts.

Variable parseFloat : string -> Number.number.

(** A timer that fires while the reader is stopped starts nothing. *)
Lemma stopped_timer_fires (r : reader) (n : nat) :
  isPlaying r = false -> queue r = [] -> timers r = S n ->
  exists r', handle parseFloat r TimerFires = Some r' /\
             isPlaying r' = false /\ queue r' = [] /\
             currentSentence r' = currentSentence r /\
             highlighted r' = highlighted r.
Proof.
  destruct r; cbn. intros -> -> ->. eexists. split; [reflexivity|].
  unfold readCurrentSentence, pauseReading. cbn.
  destruct utterance0; repeat split.
Qed.

Lemma handleFileUpload_fields (r : reader) (fileName text : string)
      (tempDiv : node) :
  quiet r ->
  let r' := handleFileUpload fileName text tempDiv r in
  sentences r' = segment tempDiv /\
  currentSentence r' = 0%Z /\ isPlaying r' = false /\ queue r' = [] /\
  highlighted r' = None /\ progress r' = Some 1%Z /\
  analysisResults r' = Some (analyze text (segment tempDiv)) /\
  last (announcements r')
  = Some ("Document loaded: " ++ fileName ++ ". "
          ++ Number.Z_to_string (Z.of_nat (List.length (segment tempDiv)))
          ++ " sentences ready for reading.") /\
  timers r' = timers r.
Proof.
  intros [_ Hq].
  unfold handleFileUpload, processDocument, resetPlayback, pauseReading,
    segment, sentenceTotal.
  rewrite analyzeAccessibility_closed.
  destruct r; cbn -[analyze detectIssues Number.Z_to_string String.append last
                    extractSentencesFromElement] in *.
  assert (Hqueue : utterance0 = None -> queue0 = []).
  { intros ->. destruct queue0; [reflexivity|].
    exfalso. apply Hq; [discriminate | reflexivity]. }
  destruct utterance0;
    cbn -[analyze detectIssues Number.Z_to_string String.append last
          extractSentencesFromElement].
  all: do 3 (split; [reflexivity|]).
  all: split; [first [reflexivity | apply Hqueue; reflexivity]|].
  all: do 3 (split; [reflexivity|]).
  all: split; [apply last_snoc|].
  all: reflexivity.
Qed.

End UploadFacts.

(** X17.  Loading a document replaces the sentences by those of the new
    document, puts the index back to 0, stops playback with nothing left in
    the engine, clears the highlight, shows the report of the new text
    over the new sentences and announces their number.  Timers set before
    are not cleared, but one that fires afterwards finds the reader stopped
    and starts nothing. *)
Theorem upload_resets_playback
        (parseFloat : string -> Number.number) (r : reader)
        (fileName text : string) (tempDiv : node) :
  reachable parseFloat r ->
  let r' := handleFileUpload fileName text tempDiv r in
  sentences r' = segment tempDiv /\
  currentSentence r' = 0%Z /\ isPlaying r' = false /\ queue r' = [] /\
  highlighted r' = None /\ progress r' = Some 1%Z /\
  analysisResults r' = Some (analyze text (segment tempDiv)) /\
  last (announcements r')
  = Some ("Document loaded: " ++ fileName ++ ". "
          ++ Number.Z_to_string (Z.of_nat (List.length (segment tempDiv)))
          ++ " sentences ready for reading.") /\
  timers r' = timers r /\
  forall n, timers r' = S n ->
    exists r'', handle parseFloat r' TimerFires = Some r'' /\
                isPlaying r'' = false /\ queue r'' = [] /\
                currentSentence r'' = 0%Z /\ highlighted r'' = None.
Proof.
  intros Hr r'.
  pose proof (handleFileUpload_fields r fileName text tempDiv
                (reachable_quiet parseFloat r Hr)) as H.
  fold r' in H. clearbody r'.
  destruct H as (H1 & H2 & H3 & H4 & H5 & H6 & H7 & H8 & H9).
  repeat (split; [assumption|]).
  intros n Hn.
  destruct (stopped_timer_fires parseFloat r' n H3 H4 Hn)
    as (r'' & E & E1 & E2 & E3 & E4).
  exists r''. rewrite E3, E4. repeat split; assumption.
Qed.

Lemma upload_resets_playback_witness :
  let r := Samples.session Samples.playingFourth in
  let r' := handleFileUpload "b.txt" Samples.two (Samples.lettersDiv Samples.two) r in
  sentences r' = ["A."; "B."] /\ currentSentence r' = 0%Z /\ queue r' = [].
Proof.
  intros r r'.
  destruct (upload_resets_playback Samples.parseOne r "b.txt" Samples.two
              (Samples.lettersDiv Samples.two)) as (H1 & H2 & _ & H4 & _).
  - exists ∅, "1", [], Samples.playingFourth. vm_compute. reflexivity.
  - split; [exact H1|]. split; [exact H2 | exact H4].
Defined.

(** X18.  When the utterance being spoken ends while the reader plays and
    nothing else waits in the engine: before the last sentence the index
    moves on by one, the reader keeps playing, and the next timer speaks
    the sentence at the new index and highlights the span with that index
    when the page has one (nothing otherwise); on the last sentence the
    index reaches the number of sentences, playback stops, nothing is
    queued and the completion is announced. *)
Theorem end_of_utterance
        (parseFloat : string -> Number.number) (r : reader)
        (u : SpeechSynthesisUtterance) :
  isPlaying r = true -> queue r = [u] -> utterance r <> None ->
  (0 <= currentSentence r < sentenceTotal r)%Z ->
  ((currentSentence r + 1 < sentenceTotal r)%Z ->
   exists r', run parseFloat [UtteranceEnd; TimerFires] r = Some r' /\
     isPlaying r' = true /\
     currentSentence r' = (currentSentence r + 1)%Z /\
     List.map text (queue r') = [sentenceAt r (currentSentence r + 1)] /\
     highlighted r' = spanIndex (currentSentence r + 1) (spans r) /\
     progress r' = Some (currentSentence r + 2)%Z /\
     timers r' = timers r) /\
  ((currentSentence r + 1 = sentenceTotal r)%Z ->
   exists r', handle parseFloat r UtteranceEnd = Some r' /\
     isPlaying r' = false /\
     currentSentence r' = sentenceTotal r /\
     queue r' = [] /\
     last (announcements r') = Some "Document reading complete." /\
     timers r' = timers r).
Proof.
  intros Hp Hq Hu Hi. unfold sentenceTotal in *.
  destruct r; cbn in *. subst. destruct utterance0; [|congruence].
  split; intros Hn; cbn;
    unfold onend, readCurrentSentence, pauseReading, sentenceTotal; branches;
    try lia; eexists; (split; [reflexivity|]); cbn;
    repeat apply conj; try reflexivity; try apply last_snoc; try lia;
    f_equal; lia.
Qed.

Lemma end_of_utterance_witness :
  let r := Samples.session Samples.playingFourth in
  exists r', run Samples.parseOne [UtteranceEnd; TimerFires] r = Some r' /\
             List.map text (queue r') = ["E."].
Proof.
  intros r.
  destruct (end_of_utterance Samples.parseOne r
              (newUtterance Samples.parseOne r)) as [H _].
  - vm_compute. reflexivity.
  - vm_compute. reflexivity.
  - vm_compute. discriminate.
  - vm_compute. split; [discriminate | reflexivity].
  - destruct H as (r' & Hrun & _ & _ & Ht & _); [vm_compute; reflexivity|].
    exists r'. split; [exact Hrun|]. rewrite Ht. vm_compute. reflexivity.
Defined.

Section RestartFacts.

Variable parseFloat : string -> Number.number.

Lemma sentenceAt_same (a b : reader) (i : Z) :
  sentences a = sentences b -> sentenceAt a i = sentenceAt b i.
Proof. unfold sentenceAt. intros ->. reflexivity. Qed.

(** A timer that fires while the reader plays inside the document speaks
    the sentence at the index, at the slider's rate, and highlights the
    span with that index when the page has one. *)
Lemma playing_timer_fires (r : reader) (n : nat) :
  isPlaying r = true -> timers r = S n ->
  (currentSentence r < sentenceTotal r)%Z ->
  exists r', handle parseFloat r TimerFires = Some r' /\
    isPlaying r' = true /\ currentSentence r' = currentSentence r /\
    queue r' = (queue r ++ [newUtterance parseFloat r])%list /\
    cancelled r' = cancelled r /\
    highlighted r' = spanIndex (currentSentence r) (spans r) /\
    timers r' = n /\ speedSlider r' = speedSlider r.
Proof.
  unfold sentenceTotal. destruct r; cbn. intros -> -> Hi.
  eexists. split; [reflexivity|].
  unfold readCurrentSentence, sentenceTotal. cbn.
  destruct (Z.leb_spec (Z.of_nat (List.length sentences0)) currentSentence0);
    [lia|]. cbn. repeat split.
Qed.

Lemma arrowRight_playing (r : reader) :
  isPlaying r = true ->
  (currentSentence r < sentenceTotal r - 1)%Z ->
  restarted r (arrowRight r) (currentSentence r + 1)%Z (speedSlider r).
Proof.
  unfold restarted, arrowRight, sentenceTotal. destruct r; cbn.
  intros -> Hi.
  destruct (Z.ltb_spec currentSentence0 (Z.of_nat (List.length sentences0) - 1));
    [|lia]. cbn. repeat split.
Qed.

Lemma arrowLeft_playing (r : reader) :
  isPlaying r = true ->
  (0 < currentSentence r)%Z ->
  restarted r (arrowLeft r) (currentSentence r - 1)%Z (speedSlider r).
Proof.
  unfold restarted, arrowLeft. destruct r; cbn.
  intros -> Hi.
  destruct (Z.ltb_spec 0 currentSentence0); [|lia]. cbn. repeat split.
Qed.

Lemma updateSpeed_playing (r : reader) (value : string) :
  isPlaying r = true -> utterance r <> None ->
  restarted r (updateSpeed (set_speedSlider value r)) (currentSentence r) value.
Proof.
  unfold restarted, updateSpeed. destruct r; cbn.
  intros -> Hu. destruct utterance0; [|congruence]. cbn. repeat split.
Qed.

(** After such a handler the next timer speaks the sentence at the new
    index, alone in the queue. *)
Lemma restarted_timer (r r1 : reader) (index : Z) (slider : string) :
  restarted r r1 index slider -> (index < sentenceTotal r)%Z ->
  exists r', handle parseFloat r1 TimerFires = Some r' /\
    isPlaying r' = true /\ currentSentence r' = index /\
    List.map text (queue r') = [sentenceAt r index] /\
    List.map rate (queue r') = [parseFloat slider] /\
    cancelled r' = (cancelled r ++ queue r)%list /\
    highlighted r' = spanIndex index (spans r) /\
    timers r' = timers r /\ speedSlider r' = slider.
Proof.
  intros (Hp & Hc & Hq & Hx & Ht & Hs & Hv & Hn) Hi.
  destruct (playing_timer_fires r1 (timers r) Hp Ht)
    as (r' & E & E1 & E2 & E3 & E4 & E5 & E6 & E7).
  { unfold sentenceTotal in *. rewrite Hs, Hc. exact Hi. }
  exists r'. split; [exact E|].
  rewrite E1, E2, E3, E4, E5, E6, E7, Hq, Hc, Hx, Hv, Hn.
  cbn [List.app List.map text rate newUtterance].
  rewrite Hc, Hv, (sentenceAt_same r1 r index Hs). repeat split.
Qed.

Lemma run_two (r r1 r2 : reader) (e1 e2 : event) :
  handle parseFloat r e1 = Some r1 -> handle parseFloat r1 e2 = Some r2 ->
  run parseFloat [e1; e2] r = Some r2.
Proof. intros H1 H2. cbn [run]. rewrite H1, H2. reflexivity. Qed.

End RestartFacts.

(** X19.  An arrow key pressed while a sentence is being spoken cancels
    what the engine holds and, at the next timer, speaks the neighbouring
    sentence and highlights the span with its index when the page has one
    (nothing otherwise); the reader keeps playing. *)
Theorem seek_while_playing
        (parseFloat : string -> Number.number) (r : reader) :
  isPlaying r = true ->
  ((0 <= currentSentence r < sentenceTotal r - 1)%Z ->
   exists r', run parseFloat [KeyArrowRight; TimerFires] r = Some r' /\
     isPlaying r' = true /\
     currentSentence r' = (currentSentence r + 1)%Z /\
     List.map text (queue r') = [sentenceAt r (currentSentence r + 1)] /\
     cancelled r' = (cancelled r ++ queue r)%list /\
     highlighted r' = spanIndex (currentSentence r + 1) (spans r) /\
     timers r' = timers r) /\
  ((0 < currentSentence r <= sentenceTotal r)%Z ->
   exists r', run parseFloat [KeyArrowLeft; TimerFires] r = Some r' /\
     isPlaying r' = true /\
     currentSentence r' = (currentSentence r - 1)%Z /\
     List.map text (queue r') = [sentenceAt r (currentSentence r - 1)] /\
     cancelled r' = (cancelled r ++ queue r)%list /\
     highlighted r' = spanIndex (currentSentence r - 1) (spans r) /\
     timers r' = timers r).
Proof.
  intros Hp. split; intros Hi.
  - destruct (restarted_timer parseFloat r (arrowRight r)
                (currentSentence r + 1)%Z (speedSlider r))
      as (r' & E & E1 & E2 & E3 & _ & E5 & E6 & E7 & _).
    + apply arrowRight_playing; [assumption | lia].
    + lia.
    + exists r'. split; [eapply run_two; [reflexivity | exact E]|].
      repeat split; assumption.
  - destruct (restarted_timer parseFloat r (arrowLeft r)
                (currentSentence r - 1)%Z (speedSlider r))
      as (r' & E & E1 & E2 & E3 & _ & E5 & E6 & E7 & _).
    + apply arrowLeft_playing; [assumption | lia].
    + lia.
    + exists r'. split; [eapply run_two; [reflexivity | exact E]|].
      repeat split; assumption.
Qed.

Lemma seek_while_playing_witness :
  let r := Samples.session Samples.playingFourth in
  exists r', run Samples.parseOne [KeyArrowRight; TimerFires] r = Some r' /\
             List.map text (queue r') = ["E."].
Proof.
  intros r.
  destruct (seek_while_playing Samples.parseOne r) as [H _].
  - vm_compute. reflexivity.
  - destruct H as (r' & Hrun & _ & _ & Ht & _).
    + vm_compute. split; [discriminate | reflexivity].
    + exists r'. split; [exact Hrun|]. rewrite Ht. vm_compute. reflexivity.
Defined.

(** X20.  Moving the speed slider while a sentence is being spoken cancels
    it and, at the next timer, speaks the same sentence again with the rate
    of the slider's new value; the index does not move. *)
Theorem speed_change_while_playing
        (parseFloat : string -> Number.number) (r : reader) (value : string) :
  isPlaying r = true -> utterance r <> None ->
  (0 <= currentSentence r < sentenceTotal r)%Z ->
  exists r', run parseFloat [SlideSpeed value; TimerFires] r = Some r' /\
    isPlaying r' = true /\
    currentSentence r' = currentSentence r /\
    List.map text (queue r') = [sentenceAt r (currentSentence r)] /\
    List.map rate (queue r') = [parseFloat value] /\
    cancelled r' = (cancelled r ++ queue r)%list /\
    speedSlider r' = value /\
    timers r' = timers r.
Proof.
  intros Hp Hu Hi.
  destruct (restarted_timer parseFloat r (updateSpeed (set_speedSlider value r))
              (currentSentence r) value)
    as (r' & E & E1 & E2 & E3 & E4 & E5 & _ & E7 & E8).
  - apply updateSpeed_playing; assumption.
  - lia.
  - exists r'. split; [eapply run_two; [reflexivity | exact E]|].
      repeat split; assumption.
Qed.

Lemma speed_change_while_playing_witness :
  let r := Samples.session Samples.playingFourth in
  exists r', run Samples.parseOne [SlideSpeed "2"; TimerFires] r = Some r' /\
             List.map text (queue r') = ["D."].
Proof.
  intros r.
  destruct (speed_change_while_playing Samples.parseOne r "2")
    as (r' & Hrun & _ & _ & Ht & _).
  - vm_compute. reflexivity.
  - vm_compute. discriminate.
  - vm_compute. split; [discriminate | reflexivity].
  - exists r'. split; [exact Hrun|]. rewrite Ht. vm_compute. reflexivity.
Defined.

(** X21.  Only the mode button writes the settings: no other event changes
    the stored settings or the mode, and no event but a move of the slider
    changes the slider's value.  In particular a change of speed is not
    saved when it is made. *)
Theorem only_the_mode_button_saves
        (parseFloat : string -> Number.number) (r r' : reader) (e : event) :
  handle parseFloat r e = Some r' ->
  (e <> ClickMode ->
   localStorage r' = localStorage r /\ accessibilityMode r' = accessibilityMode r) /\
  ((forall value, e <> SlideSpeed value) -> speedSlider r' = speedSlider r).
Proof.
  intros H.
  destruct r; destruct e; cbn in *;
    repeat match type of H with
           | context [match ?x with _ => _ end] => destruct x eqn:?; cbn in H
           end;
    try discriminate; inversion H; subst; clear H;
    unfold togglePlayback, startReading, readCurrentSentence, onend, onerror,
      updateSpeed, arrowRight, arrowLeft, handleFileUpload, processDocument,
      resetPlayback, toggleAccessibilityMode, showError, pauseReading,
      sentenceTotal;
    try rewrite analyzeAccessibility_closed;
    branches; split; intros Hne; try (split; reflexivity); try reflexivity;
    try congruence; exfalso; eapply Hne; reflexivity.
Qed.

Lemma only_the_mode_button_saves_witness :
  let r := Samples.session Samples.pausedOnFirst in
  localStorage (updateSpeed (set_speedSlider "2" r)) = localStorage r.
Proof.
  intros r.
  apply (only_the_mode_button_saves Samples.parseOne r
           (updateSpeed (set_speedSlider "2" r)) (SlideSpeed "2")).
  - reflexivity.
  - discriminate.
Defined.

Section SettingsFacts.

Lemma toggleAccessibilityMode_fields (r : reader) :
  accessibilityMode (toggleAccessibilityMode r) = negb (accessibilityMode r) /\
  localStorage (toggleAccessibilityMode r) =
    <[storageKey :=
        JObject [("accessibilityMode", JBool (negb (accessibilityMode r)));
                 ("speed", JString (speedSlider r))]]> (localStorage r) /\
  speedSlider (toggleAccessibilityMode r) = speedSlider r /\
  announcements (toggleAccessibilityMode r) =
    (announcements r ++
     [((if negb (accessibilityMode r) then "Accessibility" else "Normal")
       ++ " mode activated")%string])%list.
Proof. destruct r; cbn. repeat split. Qed.

End SettingsFacts.

(** X22.  The mode button stores the new mode together with the slider's
    value under the one key of the page and leaves every other key of the
    storage alone; pressed twice it gives back the mode, and the storage
    then holds what saving the settings before the first press would have
    stored. *)
Theorem mode_button_round_trip (r : reader) :
  let r1 := toggleAccessibilityMode r in
  let r2 := toggleAccessibilityMode r1 in
  accessibilityMode r1 = negb (accessibilityMode r) /\
  localStorage r1 !! storageKey =
    Some (JObject [("accessibilityMode", JBool (accessibilityMode r1));
                   ("speed", JString (speedSlider r))]) /\
  (forall key, key <> storageKey ->
               localStorage r1 !! key = localStorage r !! key) /\
  accessibilityMode r2 = accessibilityMode r /\
  localStorage r2 = localStorage (saveSettings r) /\
  List.length (announcements r2) = S (S (List.length (announcements r))).
Proof.
  intros r1 r2.
  destruct (toggleAccessibilityMode_fields r) as (Hm & Hs & Hv & Ha).
  destruct (toggleAccessibilityMode_fields r1) as (Hm2 & Hs2 & Hv2 & Ha2).
  fold r1 in Hm, Hs, Hv, Ha. fold r2 in Hm2, Hs2, Hv2, Ha2.
  repeat apply conj.
  - exact Hm.
  - rewrite Hs, Hm. apply lookup_insert_eq.
  - intros key Hkey. rewrite Hs. apply lookup_insert_ne. congruence.
  - rewrite Hm2, Hm. apply negb_involutive.
  - rewrite Hs2, Hs, Hm, Hv, negb_involutive, insert_insert_eq.
    destruct r; reflexivity.
  - rewrite Ha2, Ha, !length_app. cbn. lia.
Qed.

(** X23.  When the stored settings carry a truthy mode flag, constructing
    the reader writes the settings again, with the mode off and the
    slider's initial value in place of the stored speed, before it puts the
    stored speed on the slider.  The stored speed is therefore shown in
    this session only: a reader constructed over the storage left behind
    starts in accessibility mode with the slider's initial value. *)
Theorem stored_flag_rewrites_settings
        (storage : gmap string json) (parsed : json) (slider : string)
        (engineVoices : list SpeechSynthesisVoice) :
  storage !! storageKey = Some parsed ->
  Json.truthy (get "accessibilityMode" parsed) = true ->
  let r := construct storage slider engineVoices in
  let next := construct (localStorage r) slider engineVoices in
  accessibilityMode r = false /\
  speedSlider r =
    (if Json.truthy (get "speed" parsed)
     then toValue (get "speed" parsed) else slider) /\
  localStorage r =
    <[storageKey := JObject [("accessibilityMode", JBool false);
                             ("speed", JString slider)]]> storage /\
  accessibilityMode next = true /\
  speedSlider next = slider /\
  localStorage next = localStorage r.
Proof.
  intros Hk Hflag r next.
  assert (Hr : accessibilityMode r = false /\
               speedSlider r =
                 (if Json.truthy (get "speed" parsed)
                  then toValue (get "speed" parsed) else slider) /\
               localStorage r =
                 <[storageKey := JObject [("accessibilityMode", JBool false);
                                          ("speed", JString slider)]]> storage).
  { subst r. unfold construct, loadSettings. cbn. rewrite Hk, Hflag.
    destruct (Json.truthy (get "speed" parsed)); cbn; repeat split. }
  destruct Hr as (Hm & Hv & Hs).
  repeat apply conj; try assumption.
  - subst next. unfold construct, loadSettings. cbn.
    rewrite Hs, lookup_insert_eq. cbn.
    destruct (Text.truthy slider); reflexivity.
  - subst next. unfold construct, loadSettings. cbn.
    rewrite Hs, lookup_insert_eq. cbn.
    destruct (Text.truthy slider); reflexivity.
  - subst next. unfold construct, loadSettings. cbn.
    rewrite Hs, lookup_insert_eq. cbn.
    destruct (Text.truthy slider); cbn; rewrite <- Hs; reflexivity.
Qed.

Lemma stored_flag_rewrites_settings_witness :
  let storage : gmap string json :=
    {[ storageKey := JObject [("accessibilityMode", JBool true);
                              ("speed", JString "1.5")] ]} in
  let r := construct storage "1" [] in
  speedSlider r = "1.5" /\
  speedSlider (construct (localStorage r) "1" []) = "1".
Proof.
  intros storage r.
  destruct (stored_flag_rewrites_settings storage
              (JObject [("accessibilityMode", JBool true);
                        ("speed", JString "1.5")]) "1" [])
    as (_ & Hv & _ & _ & Hn & _).
  - reflexivity.
  - reflexivity.
  - split; [exact Hv | exact Hn].
Defined.

(** X24.  On a first visit, and when the stored mode flag is not truthy,
    constructing the reader writes nothing to the storage: the reader
    starts in accessibility mode with the one announcement of the page
    load, and the slider takes the stored speed when there is a truthy
    one and keeps its initial value otherwise. *)
Theorem construct_without_flag
        (storage : gmap string json) (slider : string)
        (engineVoices : list SpeechSynthesisVoice) :
  match storage !! storageKey with
  | Some parsed => Json.truthy (get "accessibilityMode" parsed) = false
  | None => True
  end ->
  let r := construct storage slider engineVoices in
  localStorage r = storage /\
  accessibilityMode r = true /\
  List.length (announcements r) = 1%nat /\
  speedSlider r =
    match storage !! storageKey with
    | Some parsed =>
        if Json.truthy (get "speed" parsed)
        then toValue (get "speed" parsed) else slider
    | None => slider
    end /\
  sentences r = [] /\ isPlaying r = false /\ queue r = [] /\ timers r = O.
Proof.
  intros H r. subst r. unfold construct, loadSettings. cbn.
  destruct (storage !! storageKey) as [parsed|]; cbn.
  - rewrite H. destruct (Json.truthy (get "speed" parsed)); cbn; repeat split.
  - repeat split.
Qed.

Lemma construct_without_flag_witness :
  let r := construct ∅ "1" [] in
  localStorage r = ∅ /\ speedSlider r = "1".
Proof.
  intros r.
  destruct (construct_without_flag ∅ "1" []) as (Hs & _ & _ & Hv & _).
  - exact I.
  - split; [exact Hs | exact Hv].
Defined.

Section SpanFacts.

Lemma allChars_impl (p q : ascii -> bool) (s : string) :
  (forall c, p c = true -> q c = true) ->
  allChars p s = true -> allChars q s = true.
Proof.
  intros Hpq. induction s as [|c s IH]; simpl; [reflexivity|].
  intros H. apply andb_prop in H. destruct H as [Hc Hs].
  rewrite (Hpq c Hc), (IH Hs). reflexivity.
Qed.

Lemma white_notTerminator (c : ascii) :
  isWhiteSpace c = true -> notTerminator c = true.
Proof.
  intros H. unfold notTerminator. destruct (isTerminator c) eqn:E; [|reflexivity].
  apply terminator_not_white in E. congruence.
Qed.

Lemma white_unpunctuated (ws : string) :
  allChars isWhiteSpace ws = true -> allChars notTerminator ws = true.
Proof. apply allChars_impl, white_notTerminator. Qed.

Lemma allChars_rev (p : ascii -> bool) (s : string) :
  allChars p (Text.rev s) = allChars p s.
Proof.
  induction s as [|c s IH]; [reflexivity|].
  cbn [Text.rev]. rewrite allChars_append, IH. simpl.
  rewrite andb_true_r. apply andb_comm.
Qed.

Lemma trimStart_split (s : string) :
  exists ws, allChars isWhiteSpace ws = true /\ s = ws ++ trimStart s.
Proof.
  induction s as [|c s (ws & Hws & Hs)].
  - exists EmptyString. split; reflexivity.
  - cbn [trimStart]. destruct (isWhiteSpace c) eqn:Hc.
    + exists (String c ws). split; [simpl; rewrite Hc; exact Hws|].
      rewrite append_cons, <- Hs. reflexivity.
    + exists EmptyString. split; reflexivity.
Qed.

Lemma trimEnd_split (s : string) :
  exists ws, allChars isWhiteSpace ws = true /\ s = trimEnd s ++ ws.
Proof.
  destruct (trimStart_split (Text.rev s)) as (ws & Hws & Hs).
  exists (Text.rev ws). split; [rewrite allChars_rev; exact Hws|].
  unfold trimEnd. rewrite <- rev_append, <- Hs, rev_involutive. reflexivity.
Qed.

Lemma trimStart_white_prefix (ws s : string) :
  allChars isWhiteSpace ws = true -> trimStart (ws ++ s) = trimStart s.
Proof.
  induction ws as [|c ws IH]; [reflexivity|].
  intros H. simpl in H. apply andb_prop in H. destruct H as [Hc Hws].
  rewrite append_cons. cbn [trimStart]. rewrite Hc. exact (IH Hws).
Qed.

Lemma trim_white_prefix (ws s : string) :
  allChars isWhiteSpace ws = true -> trim (ws ++ s) = trim s.
Proof. intros H. unfold trim. rewrite (trimStart_white_prefix _ _ H). reflexivity. Qed.

(** Text without terminators behind a string changes no attempt at a
    match inside the string. *)
Lemma span_tail (p : ascii -> bool) (s a r t : string) :
  span p s = (a, r) ->
  match r ++ t with String c _ => p c = false | EmptyString => True end ->
  span p (s ++ t) = (a, r ++ t).
Proof.
  intros E H. destruct (span_parts _ _ _ _ E) as (Hs & Ha & _).
  rewrite Hs, <- append_assoc, (span_app _ _ _ Ha).
  assert (Hr : span p (r ++ t) = (EmptyString, r ++ t)).
  { destruct (r ++ t) as [|c x]; [reflexivity|]. simpl. rewrite H. reflexivity. }
  rewrite Hr. cbn [fst snd]. rewrite append_empty_r. reflexivity.
Qed.

Lemma truthy_append_l (a b : string) :
  Text.truthy a = true -> Text.truthy (a ++ b) = true.
Proof. destruct a; [discriminate | reflexivity]. Qed.

Lemma matchAt_tail (s t : string) :
  allChars notTerminator t = true ->
  matchAt (s ++ t)
  = match matchAt s with
    | Some (m, r) => Some (m, r ++ t)
    | None => None
    end.
Proof.
  intros Ht. unfold matchAt at 2.
  destruct (span notTerminator s) as [body r1] eqn:E1.
  destruct (span_parts _ _ _ _ E1) as (Hs & Hbody & Hr1).
  destruct r1 as [|c r1].
  - rewrite append_empty_r in Hs. subst body.
    unfold matchAt.
    rewrite (span_all notTerminator (s ++ t))
      by (rewrite allChars_append, Hbody, Ht; reflexivity).
    cbn. destruct (Text.truthy (s ++ t)), (Text.truthy s); reflexivity.
  - unfold matchAt.
    rewrite (span_tail _ _ _ _ t E1)
      by (rewrite append_cons; exact Hr1).
    destruct (Text.truthy body); [|reflexivity].
    destruct (span isTerminator (String c r1)) as [marks r2] eqn:E2.
    destruct (span_parts _ _ _ _ E2) as (_ & _ & Hr2).
    rewrite (span_tail _ _ _ _ t E2).
    + destruct (Text.truthy marks); reflexivity.
    + destruct r2 as [|d r2].
      * change (EmptyString ++ t) with t.
        destruct t as [|d t]; [exact I|]. simpl in Ht.
        apply andb_prop in Ht. destruct Ht as [Hd _].
        unfold notTerminator in Hd. apply negb_true_iff in Hd. exact Hd.
      * rewrite append_cons. exact Hr2.
Qed.

Lemma matchAllFrom_tail (t : string) :
  allChars notTerminator t = true ->
  forall fuel s,
    (String.length s + String.length t <= fuel)%nat ->
    matchAllFrom fuel (s ++ t) = matchAllFrom fuel s.
Proof.
  intros Ht. induction fuel as [|fuel IH]; intros s Hlen; [reflexivity|].
  destruct s as [|c s].
  - change (EmptyString ++ t) with t.
    rewrite (matchAllFrom_unpunctuated _ _ Ht). reflexivity.
  - pose proof (matchAt_tail (String c s) t Ht) as Hm.
    rewrite append_cons in *. cbn [matchAllFrom]. rewrite Hm.
    destruct (matchAt (String c s)) as [[m r]|] eqn:E.
    + f_equal. apply IH. apply matchAt_consumes in E. simpl in *. lia.
    + apply IH. simpl in Hlen. lia.
Qed.

Lemma length_append (a b : string) :
  String.length (a ++ b) = (String.length a + String.length b)%nat.
Proof.
  induction a as [|c a IH]; [reflexivity|].
  rewrite append_cons. simpl. rewrite IH. reflexivity.
Qed.

Lemma matchAll_tail (s t : string) :
  allChars notTerminator t = true -> matchAll (s ++ t) = matchAll s.
Proof.
  intros Ht. unfold matchAll.
  rewrite (matchAllFrom_tail t Ht) by (rewrite length_append; lia).
  apply matchAllFrom_enough; rewrite ?length_append; lia.
Qed.

(** A text that starts outside the terminators and has no match at its
    start has no terminator at all. *)
Lemma matchAt_none_unpunctuated (c : ascii) (s : string) :
  notTerminator c = true -> matchAt (String c s) = None ->
  allChars notTerminator (String c s) = true.
Proof.
  intros Hc. unfold matchAt.
  destruct (span notTerminator (String c s)) as [body r1] eqn:E1.
  destruct (span_parts _ _ _ _ E1) as (Hs & Hbody & Hr1).
  assert (Hb : Text.truthy body = true).
  { simpl in E1. rewrite Hc in E1. destruct (span notTerminator s).
    inversion E1. reflexivity. }
  rewrite Hb. destruct r1 as [|d r1].
  - intros _. rewrite Hs, append_empty_r. exact Hbody.
  - simpl. unfold notTerminator in Hr1. apply negb_false_iff in Hr1.
    rewrite Hr1. destruct (span isTerminator r1). discriminate.
Qed.

Lemma matchAt_lead (ws : string) (c : ascii) (s : string) :
  allChars notTerminator ws = true -> notTerminator c = true ->
  matchAt (ws ++ String c s)
  = match matchAt (String c s) with
    | Some (m, r) => Some (ws ++ m, r)
    | None => None
    end.
Proof.
  intros Hws Hc. unfold matchAt. rewrite (span_app _ _ _ Hws).
  destruct (span notTerminator (String c s)) as [body r1] eqn:E1.
  assert (Hb : Text.truthy body = true).
  { simpl in E1. rewrite Hc in E1. destruct (span notTerminator s).
    inversion E1. reflexivity. }
  cbn [fst snd]. rewrite Hb.
  replace (Text.truthy (ws ++ body)) with true
    by (destruct ws; [symmetry; exact Hb | reflexivity]).
  destruct (span isTerminator r1) as [marks r2].
  destruct (Text.truthy marks); [|reflexivity].
  rewrite append_assoc. reflexivity.
Qed.

Lemma matchAll_lead (ws s : string) :
  allChars notTerminator ws = true ->
  ws = EmptyString \/
  match s with String c _ => notTerminator c = true | EmptyString => True end ->
  matchAll (ws ++ s)
  = match matchAll s with
    | [] => []
    | m :: ms => (ws ++ m) :: ms
    end.
Proof.
  intros Hws [->|Hs].
  { change (EmptyString ++ s) with s. destruct (matchAll s); reflexivity. }
  destruct ws as [|w ws].
  { change (EmptyString ++ s) with s. destruct (matchAll s); reflexivity. }
  destruct s as [|c s].
  { rewrite append_empty_r. unfold matchAll.
    rewrite (matchAllFrom_unpunctuated _ _ Hws). reflexivity. }
  pose proof (matchAt_lead (String w ws) c s Hws Hs) as Hm.
  unfold matchAll. rewrite append_cons in *.
  cbn [String.length matchAllFrom]. rewrite Hm.
  destruct (matchAt (String c s)) as [[m r]|] eqn:E.
  - f_equal. apply matchAt_consumes in E.
    apply matchAllFrom_enough; rewrite ?length_append; simpl in *; lia.
  - pose proof (matchAt_none_unpunctuated c s Hs E) as Hall.
    simpl in Hws. apply andb_prop in Hws. destruct Hws as [_ Hws].
    rewrite matchAllFrom_unpunctuated
      by (rewrite allChars_append, Hws, Hall; reflexivity).
    simpl in Hall. apply andb_prop in Hall. destruct Hall as [_ Hall].
    rewrite (matchAllFrom_unpunctuated _ _ Hall). reflexivity.
Qed.

(** No match trims to the empty string, so the filter of
    [extractSentencesFromElement] drops none. *)
Lemma matches_survive_filter (n : nat) (s : string) :
  List.filter (fun x => (0 <? String.length x)%nat)
              (List.map trim (matchAllFrom n s))
  = List.map trim (matchAllFrom n s).
Proof.
  pose proof (matchAllFrom_shape n s) as H.
  induction H as [|m ms Hm _ IH]; [reflexivity|].
  destruct Hm as (body & marks & -> & _ & _ & Hmt & Hmarks).
  cbn [List.map List.filter]. rewrite IH, (trim_match _ _ Hmt Hmarks).
  rewrite length_append. destruct marks; [discriminate|].
  simpl. replace (0 <? String.length (trimStart body) + S (String.length marks))%nat
    with true by (symmetry; apply Nat.ltb_lt; lia).
  reflexivity.
Qed.

Lemma textSentences_by_matches (t : string) :
  Text.truthy (trim t) = true ->
  textSentences t
  = match matchAll (trim t) with
    | [] => [trim t]
    | ms => List.map trim ms
    end.
Proof.
  intros Ht. unfold textSentences, matchSentences. rewrite Ht.
  destruct (matchAll (trim t)) as [|m ms] eqn:E.
  - cbn [List.map List.filter]. rewrite trim_idempotent.
    destruct (trim t); [discriminate | reflexivity].
  - rewrite <- E. apply matches_survive_filter.
Qed.

(** A text node as white space, its trimmed text, white space. *)
Lemma trim_split (t : string) :
  exists ws1 ws2,
    allChars isWhiteSpace ws1 = true /\ allChars isWhiteSpace ws2 = true /\
    t = ws1 ++ trim t ++ ws2 /\ trimStart t = trim t ++ ws2.
Proof.
  destruct (trimStart_split t) as (ws1 & H1 & E1).
  destruct (trimEnd_split (trimStart t)) as (ws2 & H2 & E2).
  exists ws1, ws2. unfold trim. repeat split; try assumption.
  rewrite <- E2. exact E1.
Qed.

Lemma trim_clean (t : string) : startsClean (trim t).
Proof. apply trimEnd_keeps_start, trimStart_clean. Qed.

Lemma spans_of_text (t : string) :
  leadingMark t = false -> Text.truthy (trim t) = true ->
  List.map trim (matchSentences t) = textSentences t.
Proof.
  intros Hl Ht. rewrite (textSentences_by_matches t Ht).
  destruct (trim_split t) as (ws1 & ws2 & H1 & H2 & Et & Es).
  assert (Hlead : ws1 = EmptyString \/
                  match trim t with
                  | String c _ => notTerminator c = true
                  | EmptyString => True
                  end).
  { destruct ws1 as [|w ws1]; [left; reflexivity | right].
    rewrite Et in Hl. rewrite append_cons in Hl. cbn [leadingMark] in Hl.
    simpl in H1. apply andb_prop in H1. destruct H1 as [Hw H1].
    rewrite Hw in Hl. rewrite <- append_cons, <- Et, Es in Hl.
    destruct (trim t) as [|c core]; [exact I|].
    rewrite append_cons in Hl. simpl in Hl.
    unfold notTerminator. rewrite Hl. reflexivity. }
  assert (Hm : matchAll t
               = match matchAll (trim t) with
                 | [] => []
                 | m :: ms => (ws1 ++ m) :: ms
                 end).
  { rewrite Et at 1. rewrite append_assoc.
    rewrite (matchAll_tail _ _ (white_unpunctuated _ H2)).
    apply matchAll_lead; [apply white_unpunctuated; exact H1 | exact Hlead]. }
  unfold matchSentences. rewrite Hm.
  destruct (matchAll (trim t)) as [|m ms]; [reflexivity|].
  cbn [List.map]. rewrite (trim_white_prefix _ _ H1). reflexivity.
Qed.

(** Terminators at the start of a text match nothing. *)
Lemma matchAllFrom_skip_marks (marks r : string) :
  allChars isTerminator marks = true ->
  forall n, matchAllFrom (String.length marks + n) (marks ++ r) = matchAllFrom n r.
Proof.
  induction marks as [|c marks IH]; intros H n; [reflexivity|].
  simpl in H. apply andb_prop in H. destruct H as [Hc H].
  rewrite append_cons. cbn [String.length Nat.add matchAllFrom].
  unfold matchAt. cbn [span]. unfold notTerminator at 1. rewrite Hc.
  cbn. exact (IH H n).
Qed.

Lemma matchAll_skip_marks (marks r : string) :
  allChars isTerminator marks = true -> matchAll (marks ++ r) = matchAll r.
Proof.
  intros H. unfold matchAll. rewrite length_append.
  apply matchAllFrom_skip_marks. exact H.
Qed.

End SpanFacts.

(** X25.  When no text node of the document starts with white space
    followed by a terminator, the sentence spans of the displayed document
    are the sentences of the reader, one for one and in the same order, up
    to the white space around them: the span with [data-index] [i] holds
    sentence [i]. *)
Theorem spans_follow_sentences (root : node) :
  Forall (fun t => leadingMark t = false) (descendantTexts root) ->
  List.map trim (addSentenceSpans root) = segment root /\
  List.length (addSentenceSpans root) = List.length (segment root) /\
  forall i, trim <$> (addSentenceSpans root !! i) = segment root !! i.
Proof.
  intros H.
  assert (E : List.map trim (addSentenceSpans root) = segment root).
  { rewrite segment_concat. unfold addSentenceSpans.
    induction H as [|t ts Ht _ IH]; [reflexivity|].
    cbn [List.filter List.map List.concat].
    destruct (Text.truthy (trim t)) eqn:Tt.
    - cbn [List.map List.concat]. rewrite List.map_app, IH.
      rewrite (spans_of_text t Ht Tt). reflexivity.
    - rewrite IH. unfold textSentences at 2. rewrite Tt. reflexivity. }
  repeat apply conj.
  - exact E.
  - rewrite <- E, List.length_map. reflexivity.
  - intros i. rewrite <- E. symmetry. apply list_lookup_fmap.
Qed.

Lemma spans_follow_sentences_witness :
  let root :=
    ElementNode [ElementNode [TextNode " One. Two"]; TextNode LF;
                 ElementNode [TextNode "Three! "; ElementNode [TextNode "?"]]] in
  List.map trim (addSentenceSpans root) = segment root.
Proof.
  intros root. apply spans_follow_sentences. repeat constructor.
Defined.

(** X26.  A text node that starts with white space followed by
    terminators, and has a sentence after them, gets one span more than it
    has sentences: the first span holds the white space and the
    terminators, which are no sentence of the reader, and every sentence
    of the node lies one span further than its index. *)
Theorem leading_marks_shift_spans (t : string) :
  leadingMark t = true -> matchAll (trim t) <> [] ->
  List.map trim (matchSentences t)
  = fst (span isTerminator (trim t)) :: textSentences t /\
  List.map trim (addSentenceSpans (ElementNode [TextNode t]))
  = fst (span isTerminator (trim t)) :: segment (ElementNode [TextNode t]).
Proof.
  intros Hl Hne.
  assert (Ht : Text.truthy (trim t) = true).
  { destruct (trim t); [exfalso; apply Hne; reflexivity | reflexivity]. }
  assert (Hmain : List.map trim (matchSentences t)
                  = fst (span isTerminator (trim t)) :: textSentences t).
  { rewrite (textSentences_by_matches t Ht).
    destruct (trim_split t) as (ws1 & ws2 & H1 & H2 & Et & Es).
    destruct ws1 as [|w ws1].
    { exfalso. change (EmptyString ++ trim t ++ ws2) with (trim t ++ ws2) in Et.
      pose proof (trim_clean t) as Hc.
      destruct (trim t) as [|c core]; [discriminate|].
      rewrite append_cons in Et. rewrite Et in Hl. simpl in Hl, Hc.
      rewrite Hc in Hl. discriminate. }
    assert (Hfirst : match trim t with
                     | String c _ => isTerminator c = true
                     | EmptyString => False
                     end).
    { rewrite Et in Hl. rewrite append_cons in Hl. cbn [leadingMark] in Hl.
      apply andb_prop in Hl. destruct Hl as [_ Hl].
      rewrite <- append_cons, <- Et, Es in Hl.
      destruct (trim t) as [|c core]; [discriminate|].
      rewrite append_cons in Hl. exact Hl. }
    destruct (span isTerminator (trim t)) as [marks rest] eqn:E.
    destruct (span_parts _ _ _ _ E) as (Hcore & Hmarks & Hrest).
    assert (Hmt : Text.truthy marks = true).
    { destruct (trim t) as [|c core]; [contradiction|].
      simpl in E. rewrite Hfirst in E. destruct (span isTerminator core).
      inversion E. reflexivity. }
    assert (Hcoreall : matchAll (trim t) = matchAll rest).
    { rewrite Hcore. apply matchAll_skip_marks. exact Hmarks. }
    assert (Hrest' : span isTerminator rest = (EmptyString, rest)).
    { destruct rest as [|d rest]; [reflexivity|]. simpl. rewrite Hrest. reflexivity. }
    assert (Hm : matchAll t = (String w ws1 ++ marks) :: matchAll rest).
    { rewrite Et at 1. rewrite append_assoc.
      rewrite (matchAll_tail _ _ (white_unpunctuated _ H2)).
      rewrite Hcore. unfold matchAll at 1.
      rewrite append_cons. cbn [String.length matchAllFrom].
      rewrite <- append_cons.
      rewrite (matchAt_complete (String w ws1) marks rest);
        [|reflexivity | apply white_unpunctuated; exact H1 | exact Hmt | exact Hmarks].
      rewrite Hrest'. cbn [fst snd]. rewrite append_empty_r, append_assoc.
      f_equal. apply matchAllFrom_enough; [|lia].
      rewrite !length_append. lia. }
    unfold matchSentences. rewrite Hm. cbn [fst List.map].
    rewrite (trim_match _ _ Hmt Hmarks), (trimStart_all_white _ H1).
    change (EmptyString ++ marks) with marks. f_equal.
    rewrite Hcoreall in *. destruct (matchAll rest); [contradiction | reflexivity]. }
  split; [exact Hmain|].
  rewrite segment_concat. unfold addSentenceSpans.
  cbn [descendantTexts List.app List.filter]. rewrite Ht.
  cbn [List.map List.concat]. rewrite !List.app_nil_r. exact Hmain.
Qed.

Lemma leading_marks_shift_spans_witness :
  let t := " .Hello there. Bye." in
  List.map trim (addSentenceSpans (ElementNode [TextNode t]))
  = "." :: segment (ElementNode [TextNode t]).
Proof.
  intros t.
  destruct (leading_marks_shift_spans t) as [_ H].
  - reflexivity.
  - vm_compute. discriminate.
  - exact H.
Defined.

Section PdfFacts.

Lemma splitFrom_without_separator (sep : string) : forall s cur,
  includes s sep = false ->
  splitFrom sep 0 cur s = [Text.rev cur ++ s].
Proof.
  induction s as [|c s IH]; intros cur H.
  - cbn [splitFrom]. rewrite append_empty_r. reflexivity.
  - cbn [includes] in H. apply orb_false_iff in H. destruct H as [Hp Hs].
    cbn [splitFrom]. rewrite Hp, (IH _ Hs). cbn [Text.rev].
    rewrite <- append_assoc. reflexivity.
Qed.

Lemma split_without_separator (sep s : string) :
  includes s sep = false -> split sep s = [s].
Proof. intros H. unfold split. rewrite (splitFrom_without_separator _ _ _ H). reflexivity. Qed.

(** The text of the pages, written from the first page on. *)
Lemma readPDFFile_from (pages : list (list string)) : forall fullText,
  fold_left (fun fullText items => fullText ++ pageText items ++ LF) pages fullText
  = fullText ++ fold_right (fun items rest => pageText items ++ LF ++ rest)
                           EmptyString pages.
Proof.
  induction pages as [|p pages IH]; intros fullText.
  - cbn. rewrite append_empty_r. reflexivity.
  - cbn [fold_left fold_right]. rewrite IH, <- !append_assoc. reflexivity.
Qed.

Lemma includes_blankLine_page (p rest : string) :
  allChars notLineFeed p = true ->
  includes (LF ++ rest) blankLine = false ->
  includes (p ++ LF ++ rest) blankLine = false.
Proof.
  intros Hp Hrest. induction p as [|c p IH]; [exact Hrest|].
  simpl in Hp. apply andb_prop in Hp. destruct Hp as [Hc Hp].
  rewrite append_cons. cbn [includes]. rewrite (IH Hp), orb_false_r.
  unfold blankLine, LF. rewrite append_cons. cbn [String.prefix].
  destruct (ascii_dec (ascii_of_nat 10) c) as [<-|_]; [discriminate | reflexivity].
Qed.

Lemma pages_without_blank_line (pages : list (list string)) :
  Forall plainPage pages ->
  let text := fold_right (fun items rest => pageText items ++ LF ++ rest)
                         EmptyString pages in
  includes text blankLine = false /\
  match text with
  | String c _ => notLineFeed c = true
  | EmptyString => True
  end.
Proof.
  intros H. induction H as [|p pages [Hp1 Hp2] _ [IH1 IH2]]; [split; [reflexivity | exact I]|].
  cbn [fold_right].
  set (rest := fold_right (fun items rest => pageText items ++ LF ++ rest)
                          EmptyString pages) in *.
  split.
  - apply includes_blankLine_page; [exact Hp2|].
    unfold LF at 1. rewrite append_cons. change (EmptyString ++ rest) with rest.
    cbn [includes]. rewrite IH1, orb_false_r.
    unfold blankLine, LF. rewrite append_cons. cbn [String.prefix].
    destruct (ascii_dec (ascii_of_nat 10) (ascii_of_nat 10)) as [_|Hne]; [|congruence].
    destruct rest as [|c rest']; [reflexivity|].
    change (EmptyString ++ String (ascii_of_nat 10) EmptyString)
      with (String (ascii_of_nat 10) EmptyString).
    cbn [String.prefix].
    destruct (ascii_dec (ascii_of_nat 10) c) as [<-|_]; [discriminate | reflexivity].
  - destruct (pageText p) as [|c p']; [discriminate|].
    rewrite append_cons. simpl in Hp2. apply andb_prop in Hp2. apply Hp2.
Qed.

End PdfFacts.

(** X27.  The text read from a PDF whose pages each hold some text and no
    line feed has no blank line: it is never split into paragraphs.  It
    counts as one paragraph (none when it is all white space), so the
    Text Density test of the analysis compares the length of the whole
    text with 500. *)
Theorem pdf_text_is_one_paragraph (pages : list (list string)) :
  Forall plainPage pages ->
  let text := readPDFFile pages in
  split blankLine text = [text] /\
  (paragraphCount text <= 1)%Z /\
  (Text.truthy (trim text) = true ->
   paragraphCount text = 1%Z /\
   Number.gt (avgParagraphLength text) 500
   = (500 <? Z.of_nat (String.length text))%Z).
Proof.
  intros H text.
  assert (Hs : split blankLine text = [text]).
  { apply split_without_separator. subst text. unfold readPDFFile.
    rewrite readPDFFile_from. change (EmptyString ++ ?x) with x.
    apply (pages_without_blank_line pages H). }
  assert (Hc : Text.truthy (trim text) = true -> paragraphCount text = 1%Z).
  { intros Ht. unfold paragraphCount, paragraphs. rewrite Hs. cbn [List.filter].
    destruct (trim text); [discriminate | reflexivity]. }
  split; [exact Hs|]. split.
  - unfold paragraphCount, paragraphs. rewrite Hs. cbn [List.filter].
    destruct (0 <? String.length (trim text))%nat; cbn; lia.
  - intros Ht. split; [exact (Hc Ht)|].
    unfold avgParagraphLength. rewrite (Hc Ht), gt_div by lia.
    reflexivity.
Qed.

Lemma pdf_text_is_one_paragraph_witness :
  paragraphCount (readPDFFile [["First"; "page."]; ["Second page."]]) = 1%Z.
Proof.
  destruct (pdf_text_is_one_paragraph [["First"; "page."]; ["Second page."]])
    as (_ & _ & H).
  - repeat constructor.
  - apply H. reflexivity.
Defined.
